(** * ui-api-automation: page objects, settings and logger provider

    A shallow embedding of the Python sources
      - [config/settings.py]   (environment-driven settings, airport CSV),
      - [utils/logger.py]      (process-wide logger cache),
      - [pages/base_page.py]   (logged wrappers over a Playwright page),
      - [pages/login_page.py], [pages/inventory_page.py] (page objects),
    together with the properties stated about them.

    Python [str] values are modelled by [string]; a character stands for
    the code point of the same number (U+0000 .. U+00FF).  Python [int]
    is [Z].  The browser is an interface ([Browser]); page-object methods
    are programs of a state-and-exception monad over it that also keeps a
    journal of every call made to the browser and to the logger. *)

From Stdlib Require Import ZArith Lia Bool Ascii.
From stdpp Require Import base option list strings gmap pretty.

Open Scope string_scope.
Open Scope list_scope.
Open Scope Z_scope.

(** ** Python string primitives *)

Module PyStr.

(** [str.isspace] on one character: the code points below 256 that
    Python treats as white space. *)
Definition is_space (c : ascii) : bool :=
  let n := Ascii.N_of_ascii c in
  ((9 <=? n) && (n <=? 13) || (28 <=? n) && (n <=? 32)
   || (n =? 133) || (n =? 160))%N.

(** Truthiness of a [str]: non-empty. *)
Definition truthy (s : string) : bool :=
  match s with
  | EmptyString => false
  | String _ _ => true
  end.

Fixpoint lstrip (s : string) : string :=
  match s with
  | EmptyString => EmptyString
  | String c r => if is_space c then lstrip r else s
  end.

Fixpoint rstrip (s : string) : string :=
  match s with
  | EmptyString => EmptyString
  | String c r =>
      let r' := rstrip r in
      if is_space c && negb (truthy r') then EmptyString else String c r'
  end.

(** [s.strip()] *)
Definition strip (s : string) : string := rstrip (lstrip s).

(** [s.split(sep)] for a one-character separator: always at least one
    field. *)
Fixpoint split (sep : ascii) (s : string) : list string :=
  match s with
  | EmptyString => [EmptyString]
  | String c r =>
      if Ascii.eqb c sep then EmptyString :: split sep r
      else match split sep r with
           | f :: fs => String c f :: fs
           | [] => [String c EmptyString]
           end
  end.

(** [sep.join(l)] *)
Fixpoint join (sep : ascii) (l : list string) : string :=
  match l with
  | [] => EmptyString
  | [x] => x
  | x :: rest => x +:+ String sep (join sep rest)
  end.

Fixpoint contains (c : ascii) (s : string) : bool :=
  match s with
  | EmptyString => false
  | String d r => Ascii.eqb d c || contains c r
  end.

(** [str(n)] for an [int]. *)
Definition of_int (n : Z) : string := pretty n.

(** [str(b)] for a [bool]. *)
Definition of_bool (b : bool) : string := if b then "True" else "False".

Definition digit_val (c : ascii) : option Z :=
  let n := Ascii.N_of_ascii c in
  if ((48 <=? n) && (n <=? 57))%N then Some (Z.of_N n - 48) else None.

(** The digit part of an [int] literal: decimal digits, single
    underscores allowed between two digits.  [seen] tells whether the
    previous character was a digit. *)
Fixpoint parse_digits (s : string) (acc : Z) (seen : bool) : option Z :=
  match s with
  | EmptyString => if seen then Some acc else None
  | String c r =>
      if Ascii.eqb c "_" then
        (if seen then parse_digits r acc false else None)
      else
        match digit_val c with
        | Some d => parse_digits r (10 * acc + d) true
        | None => None
        end
  end.

(** The white space [int] skips around a number: narrower than
    [str.isspace], the separators U+001C .. U+001F are not part of it. *)
Definition int_space (c : ascii) : bool :=
  let n := Ascii.N_of_ascii c in
  ((9 <=? n) && (n <=? 13) || (n =? 32) || (n =? 133) || (n =? 160))%N.

Fixpoint lskip (s : string) : string :=
  match s with
  | EmptyString => EmptyString
  | String c r => if int_space c then lskip r else s
  end.

Fixpoint rskip (s : string) : string :=
  match s with
  | EmptyString => EmptyString
  | String c r =>
      let r' := rskip r in
      if int_space c && negb (truthy r') then EmptyString else String c r'
  end.

(** [int(s)] for a [str]; [None] stands for [ValueError].  (The
    interpreter's limit on the number of digits is left out.) *)
Definition to_int (s : string) : option Z :=
  match rskip (lskip s) with
  | String "+" r => parse_digits r 0 false
  | String "-" r => Z.opp <$> parse_digits r 0 false
  | t => parse_digits t 0 false
  end.

(** [x or d] for [x : str | None] and [d : str]: [d] replaces every
    falsy [x]. *)
Definition or_default (x : option string) (d : string) : string :=
  match x with
  | Some s => if truthy s then s else d
  | None => d
  end.

End PyStr.

(** ** config/settings.py *)

Module Settings.

(** [os.environ] *)
Abbreviation Env := (gmap string string).

(** [os.getenv(name, default)] *)
Definition getenv (env : Env) (name default : string) : string :=
  match env !! name with
  | Some v => v
  | None => default
  end.

Record Credentials := mkCredentials {
  username : string;
  password : string
}.

(** The dataclass defaults of [Credentials], read from the environment. *)
Definition credentials_of (env : Env) : Credentials :=
  {| username := getenv env "SAUCE_USERNAME" "standard_user";
     password := getenv env "SAUCE_PASSWORD" "secret_sauce" |}.

Record AirportData := mkAirportData {
  expected_airports_csv : string;
  distance_from : string;
  distance_to : string
}.

(** [[a.strip() for a in self.expected_airports_csv.split(',') if a.strip()]] *)
Definition expected_airports (d : AirportData) : list string :=
  map PyStr.strip
    (List.filter (fun a => PyStr.truthy (PyStr.strip a))
       (PyStr.split "," (expected_airports_csv d))).

(** A name as it can appear in the parsed list: not empty, no white
    space around it, no comma in it. *)
Definition clean_name (a : string) : Prop :=
  PyStr.truthy a = true /\ PyStr.strip a = a /\ PyStr.contains "," a = false.

End Settings.


(** ** Exceptions *)

Inductive PyError :=
| TimeoutError (what : string)     (* playwright's TimeoutError *)
| AssertionError (msg : string)    (* a failed [assert] or [expect] *)
| ValueError (msg : string)
| OSError (msg : string).

(** ** The Playwright page, as the page objects use it *)

Module Playwright.

(** Lazy element references: [page.locator(sel)] and [loc.first]. *)
Inductive Locator :=
| Css (selector : string)
| First (l : Locator).

(** The browser behind a page handle.  Queries read the live page and,
    [count] apart, may raise; actions either raise or give the page after
    the action.  [loc_input_value] is not called by the page objects: it
    is how a field's content is observed. *)
Class Browser (W : Type) := {
  loc_count : Locator -> W -> nat;
  loc_is_visible : Locator -> W -> PyError + bool;
  loc_text_content : Locator -> W -> PyError + option string;
  loc_input_value : Locator -> W -> option string;
  loc_click : Locator -> bool -> W -> PyError + W;
  loc_fill : Locator -> string -> W -> PyError + W;
  expect_to_be_visible : Locator -> Z -> W -> PyError + W;
  loc_repr : Locator -> string
}.

(** Calls that reach the browser. *)
Inductive Call :=
| CCount (l : Locator)
| CIsVisible (l : Locator)
| CTextContent (l : Locator)
| CClick (l : Locator) (force : bool)
| CFill (l : Locator) (text : string)
| CExpectVisible (l : Locator) (timeout : Z).

Inductive Level := DEBUG | INFO.

(** One journal entry: a logger call or a browser call, in program
    order. *)
Inductive Event :=
| Log (logger : string) (lvl : Level) (msg : string)
| Did (c : Call).

Record Run (W : Type) := mkRun {
  page : W;
  journal : list Event
}.
Arguments mkRun {W} _ _.
Arguments page {W} _.
Arguments journal {W} _.

(** How a method call ends.  [Unfinished] is not a Python outcome: a
    loop was still running when the iteration budget ran out. *)
Inductive Outcome (A : Type) :=
| Return (a : A)
| Raise (e : PyError)
| Unfinished.
Arguments Return {A} _.
Arguments Raise {A} _.
Arguments Unfinished {A}.

Definition M (W A : Type) : Type := Run W -> Outcome A * Run W.

Definition ret {W A} (a : A) : M W A := fun r => (Return a, r).

Definition bind {W A B} (m : M W A) (k : A -> M W B) : M W B :=
  fun r =>
    match m r with
    | (Return a, r') => k a r'
    | (Raise e, r') => (Raise e, r')
    | (Unfinished, r') => (Unfinished, r')
    end.

Definition raise {W A} (e : PyError) : M W A := fun r => (Raise e, r).

Definition note {W} (e : Event) : M W unit :=
  fun r => (Return tt, mkRun (page r) (journal r ++ [e])).

(** A read-only browser call. *)
Definition query {W A} (c : Call) (f : W -> A) : M W A :=
  fun r => (Return (f (page r)), mkRun (page r) (journal r ++ [Did c])).

(** A read-only browser call that may raise. *)
Definition try_query {W A} (c : Call) (f : W -> PyError + A) : M W A :=
  fun r =>
    let r' := mkRun (page r) (journal r ++ [Did c]) in
    match f (page r) with
    | inl e => (Raise e, r')
    | inr a => (Return a, r')
    end.

(** A browser action: on an exception the page stays as it was. *)
Definition action {W} (c : Call) (f : W -> PyError + W) : M W unit :=
  fun r =>
    let j := journal r ++ [Did c] in
    match f (page r) with
    | inl e => (Raise e, mkRun (page r) j)
    | inr w => (Return tt, mkRun w j)
    end.

(** [assert cond, msg] *)
Definition assert_ {W} (cond : bool) (msg : string) : M W unit :=
  if cond then ret tt else raise (AssertionError msg).

(** [for i in range(n): acc = body(i, acc)] *)
Fixpoint for_loop {W A} (k : nat) (i : Z) (body : Z -> A -> M W A) (acc : A)
  : M W A :=
  match k with
  | O => ret acc
  | S k' => bind (body i acc) (for_loop k' (i + 1) body)
  end.

Definition for_range {W A} (n : Z) (body : Z -> A -> M W A) (acc : A) : M W A :=
  for_loop (Z.to_nat n) 0 body acc.

(** [while cond(): acc = body(acc)], the condition evaluated at most
    [fuel] times. *)
Fixpoint while_loop {W A} (fuel : nat) (cond : M W bool) (body : A -> M W A)
    (acc : A) : M W A :=
  match fuel with
  | O => fun r => (Unfinished, r)
  | S fuel' =>
      bind cond (fun b =>
        if b then bind (body acc) (while_loop fuel' cond body)
        else ret acc)
  end.

(** The browser calls of a journal, in order. *)
Definition calls (j : list Event) : list Call :=
  omap (fun e => match e with Did c => Some c | Log _ _ _ => None end) j.

End Playwright.

#[global] Instance M_ret {W} : MRet (Playwright.M W) := @Playwright.ret W.
#[global] Instance M_bind {W} : MBind (Playwright.M W) :=
  fun A B k m => Playwright.bind m k.

(** ** pages/base_page.py *)

Module BasePage.
Import Playwright.

(** A page object: what [__init__] stores besides the page handle is
    the logger, named after the class. *)
Record PageObject := mkPageObject { cls_name : string }.

(** [Union[str, Locator]] *)
Inductive Target :=
| TSel (selector : string)
| TLoc (l : Locator).

Section Methods.
Context {W : Type} `{Browser W}.
Variable self : PageObject.

Definition log (lvl : Level) (msg : string) : M W unit :=
  note (Log (cls_name self) lvl msg).

Definition locator (selector : string) : M W Locator :=
  log DEBUG ("Create locator: " +:+ selector);;
  mret (Css selector).

Definition _ensure_locator (target : Target) : M W Locator :=
  match target with
  | TLoc l => mret l
  | TSel s => locator s
  end.

Definition _describe (l : Locator) : string := loc_repr l.

Definition click (target : Target) (force : bool) : M W unit :=
  loc ← _ensure_locator target;
  log INFO ("Click: " +:+ _describe loc +:+ " (force=" +:+ PyStr.of_bool force +:+ ")");;
  action (CClick loc force) (loc_click loc force).

Definition fill (target : Target) (text : string) (clear : bool) : M W unit :=
  loc ← _ensure_locator target;
  log INFO ("Fill: '" +:+ text +:+ "' into " +:+ _describe loc
            +:+ " (clear=" +:+ PyStr.of_bool clear +:+ ")");;
  (if clear then action (CFill loc "") (loc_fill loc "") else mret tt);;
  action (CFill loc text) (loc_fill loc text).

Definition get_text (target : Target) : M W string :=
  loc ← _ensure_locator target;
  content ← try_query (CTextContent loc) (loc_text_content loc);
  let value := PyStr.or_default content "" in
  log DEBUG ("Text from " +:+ _describe loc +:+ " => '" +:+ PyStr.strip value +:+ "'");;
  mret (PyStr.strip value).

Definition is_visible (target : Target) : M W bool :=
  loc ← _ensure_locator target;
  visible ← try_query (CIsVisible loc) (loc_is_visible loc);
  log DEBUG ("Visible? " +:+ _describe loc +:+ " => " +:+ PyStr.of_bool visible);;
  mret visible.

Definition expect_visible (target : Target) (timeout : Z) : M W Locator :=
  loc ← _ensure_locator target;
  log INFO ("Expect visible: " +:+ _describe loc +:+ " within "
            +:+ PyStr.of_int timeout +:+ "ms");;
  action (CExpectVisible loc timeout) (expect_to_be_visible loc timeout);;
  mret loc.

End Methods.
End BasePage.

(** ** pages/login_page.py *)

Module LoginPage.
Import Playwright BasePage.

Definition self : PageObject := mkPageObject "LoginPage".

Section Methods.
Context {W : Type} `{Browser W}.
(** [config.settings.credentials] *)
Variable credentials : Settings.Credentials.

Definition username_input : M W Locator := locator self "#user-name".
Definition password_input : M W Locator := locator self "#password".
Definition login_button : M W Locator := locator self "#login-button".

Definition login (username password : option string) : M W unit :=
  let username := PyStr.or_default username (Settings.username credentials) in
  let password := PyStr.or_default password (Settings.password credentials) in
  u ← username_input;
  fill self (TLoc u) username true;;
  p ← password_input;
  fill self (TLoc p) password true;;
  b ← login_button;
  click self (TLoc b) false.

End Methods.
End LoginPage.

(** ** pages/inventory_page.py *)

Module InventoryPage.
Import Playwright BasePage.

Definition self : PageObject := mkPageObject "InventoryPage".

(** The selectors quote their attribute values; [q] is that quote
    character. *)
Definition q : string := String (Ascii.ascii_of_nat 34) EmptyString.

Definition INVENTORY_ITEM := "[data-test=" +:+ q +:+ "inventory-item" +:+ q +:+ "]".
Definition ADD_TO_CART_BTNS := "button[data-test^=" +:+ q +:+ "add-to-cart-" +:+ q +:+ "]".
Definition REMOVE_BTNS := "button[data-test^=" +:+ q +:+ "remove-" +:+ q +:+ "]".
Definition CART_BADGE := ".shopping_cart_badge".

Section Methods.
Context {W : Type} `{Browser W}.

Definition inventory_items : M W Locator := locator self INVENTORY_ITEM.
Definition add_buttons : M W Locator := locator self ADD_TO_CART_BTNS.
Definition cart_badge : M W Locator := locator self CART_BADGE.

Definition add_first_item_to_cart : M W unit :=
  log self INFO "Adding first item to cart";;
  b ← add_buttons;
  click self (TLoc (First b)) false.

Definition add_items_to_cart (number : Z) : M W Z :=
  b ← add_buttons;
  available ← query (CCount b) (fun w => Z.of_nat (loc_count b w));
  let to_add := Z.min number available in
  log self INFO ("Requested to add " +:+ PyStr.of_int number
                 +:+ " items, available add buttons: " +:+ PyStr.of_int available
                 +:+ ". Will add " +:+ PyStr.of_int to_add +:+ ".");;
  added ← for_range to_add (fun _ added =>
             b ← add_buttons;
             click self (TLoc (First b)) false;;
             mret (added + 1)) 0;
  log self INFO ("Added " +:+ PyStr.of_int added +:+ " items to cart");;
  mret added.

Definition add_all_items_to_cart (fuel : nat) : M W Z :=
  added ← while_loop fuel
             (b ← add_buttons;
              n ← query (CCount b) (fun w => Z.of_nat (loc_count b w));
              mret (0 <? n))
             (fun added =>
                b ← add_buttons;
                click self (TLoc (First b)) false;;
                mret (added + 1)) 0;
  log self INFO ("All items added. Total=" +:+ PyStr.of_int added);;
  mret added.

Definition assert_cart_count (expected : Z) : M W unit :=
  if expected =? 0 then
    visible ← is_visible self (TSel CART_BADGE);
    actual ← (if negb visible then mret 0
              else
                b ← cart_badge;
                t ← get_text self (TLoc b);
                match PyStr.to_int t with
                | Some n => mret n
                | None => raise (ValueError ("invalid literal for int() with base 10: '" +:+ t +:+ "'"))
                end);
    assert_ (actual =? 0)
      ("Expected empty cart (0) but badge showed " +:+ PyStr.of_int actual);;
    log self INFO "Cart is empty as expected"
  else
    b ← cart_badge;
    expect_visible self (TLoc b) 10000;;
    b' ← cart_badge;
    actual ← get_text self (TLoc b');
    assert_ (String.eqb actual (PyStr.of_int expected))
      ("Cart badge expected " +:+ PyStr.of_int expected +:+ " got " +:+ actual).

End Methods.
End InventoryPage.

(** ** What the methods write into the journal *)

Module Journal.
Import Playwright BasePage.

Section Entries.
Context {W : Type} `{Browser W}.

(** The locator a target stands for, and what resolving it logs. *)
Definition target_locator (target : Target) : Locator :=
  match target with
  | TSel s => Css s
  | TLoc l => l
  end.

Definition target_entries (self : PageObject) (target : Target) : list Event :=
  match target with
  | TSel s => [Log (cls_name self) DEBUG ("Create locator: " +:+ s)]
  | TLoc _ => []
  end.

Definition click_entries_of self target force : list Event :=
  target_entries self target
  ++ [Log (cls_name self) INFO
        ("Click: " +:+ loc_repr (target_locator target)
         +:+ " (force=" +:+ PyStr.of_bool force +:+ ")");
      Did (CClick (target_locator target) force)].

Definition fill_log self target text (clear : bool) : list Event :=
  target_entries self target
  ++ [Log (cls_name self) INFO
        ("Fill: '" +:+ text +:+ "' into " +:+ loc_repr (target_locator target)
         +:+ " (clear=" +:+ PyStr.of_bool clear +:+ ")")].

Definition text_entries_of self target (content : option string) : list Event :=
  target_entries self target
  ++ [Did (CTextContent (target_locator target));
      Log (cls_name self) DEBUG
        ("Text from " +:+ loc_repr (target_locator target) +:+ " => '"
         +:+ PyStr.strip (PyStr.or_default content EmptyString) +:+ "'")].

Definition visible_entries_of self target (visible : bool) : list Event :=
  target_entries self target
  ++ [Did (CIsVisible (target_locator target));
      Log (cls_name self) DEBUG
        ("Visible? " +:+ loc_repr (target_locator target) +:+ " => "
         +:+ PyStr.of_bool visible)].

Definition expect_entries_of self target (timeout : Z) : list Event :=
  target_entries self target
  ++ [Log (cls_name self) INFO
        ("Expect visible: " +:+ loc_repr (target_locator target) +:+ " within "
         +:+ PyStr.of_int timeout +:+ "ms");
      Did (CExpectVisible (target_locator target) timeout)].

End Entries.
End Journal.

(** ** utils/logger.py *)

Module Logger.

(** Handler objects of the [logging] module, with what the code sets
    on them. *)
Inductive Handler :=
| StreamHandler (level fmt datefmt : string)
| FileHandler (path level fmt datefmt : string).

Record LoggerObj := mkLoggerObj {
  level : string;
  handlers : list Handler;
  propagate : bool
}.

(** The module constants [LOG_LEVEL] (already upper-cased) and
    [LOG_DIR]. *)
Record Config := mkConfig {
  LOG_LEVEL : string;
  LOG_DIR : string
}.

(** What the surroundings answer during one call: the clock reading
    [datetime.utcnow().strftime("%Y%m%d_%H%M%S")] and whether the log
    file can be opened. *)
Record Ambient := mkAmbient {
  session_ts : string;
  file_opens : bool
}.

(** Process-wide state: the registry of [logging] (one logger object
    per key, a logger is referred to by its key) and the module-level
    dict [_loggers]. *)
Record Process := mkProcess {
  manager : gmap string LoggerObj;
  _loggers : gmap string string
}.

(** Level names [setLevel] accepts. *)
Definition valid_level (l : string) : bool :=
  bool_decide (l ∈ ["CRITICAL"; "FATAL"; "ERROR"; "WARN"; "WARNING";
                    "INFO"; "DEBUG"; "NOTSET"]).

(** [logging.getLogger(name)] gives the root logger for a falsy name
    and for the root's own name. *)
Definition logger_key (name : string) : string :=
  if PyStr.truthy name then name else "root".

Definition fresh_logger (key : string) : LoggerObj :=
  {| level := if String.eqb key "root" then "WARNING" else "NOTSET";
     handlers := [];
     propagate := true |}.

Definition the_logger (p : Process) (key : string) : LoggerObj :=
  match manager p !! key with
  | Some o => o
  | None => fresh_logger key
  end.

Definition set_logger (key : string) (o : LoggerObj) (p : Process) : Process :=
  {| manager := <[key := o]> (manager p); _loggers := _loggers p |}.

(** [os.path.join(a, b)] on POSIX. *)
Definition path_join (a b : string) : string :=
  if String.prefix "/" b then b
  else if negb (PyStr.truthy a) || String.prefix "/" (String.rev a) then a +:+ b
  else a +:+ "/" +:+ b.

Definition FMT := "%(asctime)s | %(levelname)-8s | %(name)s | %(message)s".
Definition DATEFMT := "%Y-%m-%d %H:%M:%S".

Definition console_handler (cfg : Config) : Handler :=
  StreamHandler (LOG_LEVEL cfg) FMT DATEFMT.

Definition file_handler (cfg : Config) (ts : string) : Handler :=
  FileHandler (path_join (LOG_DIR cfg) ("test_run_" +:+ ts +:+ ".log"))
    (LOG_LEVEL cfg) FMT DATEFMT.

Definition add_handler (key : string) (h : Handler) (p : Process) : Process :=
  let o := the_logger p key in
  set_logger key {| level := level o; handlers := handlers o ++ [h];
                    propagate := propagate o |} p.

Definition setup_logger (cfg : Config) (amb : Ambient) (name : string)
    (p : Process) : (PyError + string) * Process :=
  match _loggers p !! name with
  | Some logger => (inr logger, p)
  | None =>
      (* logger = logging.getLogger(name) *)
      let logger := logger_key name in
      let p := set_logger logger (the_logger p logger) p in
      (* logger.setLevel(LOG_LEVEL) *)
      if negb (valid_level (LOG_LEVEL cfg)) then
        (inl (ValueError ("Unknown level: '" +:+ LOG_LEVEL cfg +:+ "'")), p)
      else
        let o := the_logger p logger in
        let p := set_logger logger
                   {| level := LOG_LEVEL cfg; handlers := handlers o;
                      propagate := propagate o |} p in
        let finish (p : Process) :=
          let o := the_logger p logger in
          let p := set_logger logger
                     {| level := level o; handlers := handlers o;
                        propagate := false |} p in
          (inr logger,
           {| manager := manager p; _loggers := <[name := logger]> (_loggers p) |}) in
        match handlers (the_logger p logger) with
        | [] =>
            let p := add_handler logger (console_handler cfg) p in
            if file_opens amb then
              finish (add_handler logger (file_handler cfg (session_ts amb)) p)
            else
              (inl (OSError "cannot open log file"), p)
        | _ :: _ => finish p
        end
  end.

(** The handlers attached to the logger with a given key. *)
Definition handlers_of (p : Process) (key : string) : list Handler :=
  handlers (the_logger p key).

(** A sequence of [setup_logger] calls, whatever each one's outcome. *)
Fixpoint run_calls (cfg : Config) (cs : list (Ambient * string)) (p : Process)
  : Process :=
  match cs with
  | [] => p
  | (amb, name) :: rest => run_calls cfg rest (snd (setup_logger cfg amb name p))
  end.

Definition is_console (h : Handler) : bool :=
  match h with StreamHandler _ _ _ => true | FileHandler _ _ _ _ => false end.

Definition is_file (h : Handler) : bool := negb (is_console h).

(** How [setup_logger] may change the handler list of a logger: not at
    all, or from empty to the console handler followed (when the log file
    opened) by the file handler. *)
Definition attached_once (cfg : Config) (before after : list Handler) : Prop :=
  after = before
  \/ (before = []
      /\ (after = [console_handler cfg]
          \/ exists ts, after = [console_handler cfg; file_handler cfg ts])).

End Logger.

(** ** Browsers to run the page objects against

    The shop itself is not part of the repository.  These small models
    serve as concrete pages: the inventory screen of a shop in which
    every product carries one button (add, or remove once it is in the
    cart) and the badge shows the cart size; the login form; and a
    browser whose actions start to fail after a number of them. *)

Module SauceDemo.
Import Playwright.

Definition timeout {A} (l : Locator) : PyError + A :=
  inl (TimeoutError "waiting for locator").

(** *** Inventory screen: one flag per product, [true] = in the cart. *)
Record Inventory := mkInventory {
  in_cart : list bool;
  (** does this shop render an empty cart as a visible badge reading 0? *)
  zero_badge : bool
}.

Definition cart_size (w : Inventory) : nat := length (List.filter id (in_cart w)).
Definition addable (w : Inventory) : nat := length (List.filter negb (in_cart w)).

Fixpoint add_first (l : list bool) : list bool :=
  match l with
  | [] => []
  | false :: r => true :: r
  | true :: r => true :: add_first r
  end.

Fixpoint inv_count (l : Locator) (w : Inventory) : nat :=
  match l with
  | Css s =>
      if String.eqb s InventoryPage.ADD_TO_CART_BTNS then addable w
      else if String.eqb s InventoryPage.REMOVE_BTNS then cart_size w
      else if String.eqb s InventoryPage.INVENTORY_ITEM then length (in_cart w)
      else if String.eqb s InventoryPage.CART_BADGE then
      (if zero_badge w then 1%nat else Nat.min 1 (cart_size w))
      else O
  | First l' => Nat.min 1 (inv_count l' w)
  end.

Fixpoint root_selector (l : Locator) : string :=
  match l with
  | Css s => s
  | First l' => root_selector l'
  end.

Definition inv_visible (l : Locator) (w : Inventory) : bool :=
  negb (Nat.eqb (inv_count l w) 0).

Definition inv_text (l : Locator) (w : Inventory) : PyError + option string :=
  if inv_visible l w then
    if String.eqb (root_selector l) InventoryPage.CART_BADGE
    then inr (Some (PyStr.of_int (Z.of_nat (cart_size w))))
    else inr (Some EmptyString)
  else timeout l.

Definition inv_click (l : Locator) (force : bool) (w : Inventory) : PyError + Inventory :=
  match inv_count l w with
  | O => timeout l
  | S O =>
      if String.eqb (root_selector l) InventoryPage.ADD_TO_CART_BTNS
      then inr (mkInventory (add_first (in_cart w)) (zero_badge w))
      else inr w
  | S (S _) => inl (AssertionError "strict mode violation")
  end.

Definition repr (l : Locator) : string :=
  "<Locator selector='" +:+ root_selector l +:+ "'>".

#[global] Instance inventory_browser : Browser Inventory := {|
  loc_count := inv_count;
  loc_is_visible := fun l w =>
    match inv_count l w with
    | S (S _) => inl (AssertionError "strict mode violation")
    | _ => inr (inv_visible l w)
    end;
  loc_text_content := inv_text;
  loc_input_value := fun _ _ => None;
  loc_click := inv_click;
  loc_fill := fun l _ _ => timeout l;
  expect_to_be_visible := fun l _ w =>
    if inv_visible l w then inr w
    else inl (AssertionError "Locator expected to be visible");
  loc_repr := repr
|}.

(** The six-product inventory with an empty cart. *)
Definition six_products : Inventory := mkInventory (replicate 6 false) false.

(** *** Login form: the two fields, and what was in them at each click
    on the login button. *)
Record LoginForm := mkLoginForm {
  user_field : string;
  pass_field : string;
  submitted : list (string * string)
}.

Definition form_count (l : Locator) (w : LoginForm) : nat :=
  let s := root_selector l in
  if String.eqb s "#user-name" || String.eqb s "#password"
     || String.eqb s "#login-button" then 1%nat else O.

Definition form_value (l : Locator) (w : LoginForm) : option string :=
  let s := root_selector l in
  if String.eqb s "#user-name" then Some (user_field w)
  else if String.eqb s "#password" then Some (pass_field w)
  else None.

Definition form_fill (l : Locator) (text : string) (w : LoginForm)
  : PyError + LoginForm :=
  let s := root_selector l in
  if String.eqb s "#user-name" then
    inr (mkLoginForm text (pass_field w) (submitted w))
  else if String.eqb s "#password" then
    inr (mkLoginForm (user_field w) text (submitted w))
  else timeout l.

Definition form_click (l : Locator) (force : bool) (w : LoginForm)
  : PyError + LoginForm :=
  let s := root_selector l in
  if String.eqb s "#login-button" then
    inr (mkLoginForm (user_field w) (pass_field w)
           (submitted w ++ [(user_field w, pass_field w)]))
  else if Nat.eqb (form_count l w) 0 then timeout l
  else inr w.

#[global] Instance login_browser : Browser LoginForm := {|
  loc_count := form_count;
  loc_is_visible := fun l w => inr (negb (Nat.eqb (form_count l w) 0));
  loc_text_content := fun l w =>
    if Nat.eqb (form_count l w) 0 then timeout l else inr (Some EmptyString);
  loc_input_value := form_value;
  loc_click := form_click;
  loc_fill := form_fill;
  expect_to_be_visible := fun l _ w =>
    if Nat.eqb (form_count l w) 0
    then inl (AssertionError "Locator expected to be visible") else inr w;
  loc_repr := repr
|}.

(** *** A browser that breaks down: [budget] more actions succeed, every
    later one raises. *)
Record Flaky (W : Type) := mkFlaky { budget : nat; inner : W }.
Arguments mkFlaky {W} _ _.
Arguments budget {W} _.
Arguments inner {W} _.

Definition flaky_act {W} (f : W -> PyError + W) (w : Flaky W) : PyError + Flaky W :=
  match budget w with
  | O => inl (TimeoutError "browser has been closed")
  | S b =>
      match f (inner w) with
      | inl e => inl e
      | inr w' => inr (mkFlaky b w')
      end
  end.

#[global] Instance flaky_browser {W} `{Browser W} : Browser (Flaky W) := {|
  loc_count := fun l w => loc_count l (inner w);
  loc_is_visible := fun l w => loc_is_visible l (inner w);
  loc_text_content := fun l w => loc_text_content l (inner w);
  loc_input_value := fun l w => loc_input_value l (inner w);
  loc_click := fun l force => flaky_act (loc_click l force);
  loc_fill := fun l text => flaky_act (loc_fill l text);
  expect_to_be_visible := fun l t => flaky_act (expect_to_be_visible l t);
  loc_repr := loc_repr
|}.

End SauceDemo.

(** ** Assumptions on the page, and journal predicates *)

Module Shop.
Import Playwright.

Definition ADD := Css InventoryPage.ADD_TO_CART_BTNS.
Definition REMOVE := Css InventoryPage.REMOVE_BTNS.
Definition ITEMS := Css InventoryPage.INVENTORY_ITEM.
Definition BADGE := Css InventoryPage.CART_BADGE.

Section Laws.
Context {W : Type} `{Browser W}.

(** Each click on the first add button succeeds and removes exactly
    that button. *)
Definition click_removes_one : Prop :=
  forall w, (0 < loc_count ADD w)%nat ->
    exists w', loc_click (First ADD) false w = inr w'
               /\ loc_count ADD w' = pred (loc_count ADD w).

(** A clicked add button turns into a remove button. *)
Definition click_converts : Prop :=
  forall w w', loc_click (First ADD) false w = inr w' ->
    loc_count REMOVE w' = S (loc_count REMOVE w)
    /\ loc_count ITEMS w' = loc_count ITEMS w.

(** Every product carries exactly one of the two buttons. *)
Definition one_button_each : Prop :=
  forall w, (loc_count ADD w + loc_count REMOVE w = loc_count ITEMS w)%nat.

(** With something in the cart the badge is there and shows the cart
    size. *)
Definition badge_shows_cart : Prop :=
  forall w, (0 < loc_count REMOVE w)%nat ->
    (forall t, expect_to_be_visible BADGE t w = inr w)
    /\ loc_text_content BADGE w
       = inr (Some (PyStr.of_int (Z.of_nat (loc_count REMOVE w)))).

(** A field holds what was last written into it. *)
Definition fill_sets_value : Prop :=
  forall l text w w', loc_fill l text w = inr w' ->
    loc_input_value l w' = Some text.
End Laws.

(** The page after [k] successive clicks on the first add button. *)
Fixpoint clicks {W : Type} `{Browser W} (k : nat) (w : W) : PyError + W :=
  match k with
  | O => inr w
  | S k' =>
      match loc_click (First ADD) false w with
      | inl e => inl e
      | inr w' => clicks k' w'
      end
  end.

Section Loops.
Context {W : Type} `{Browser W}.

(** The body of both loops of the inventory page: click the first add
    button, count it. *)
Definition add_one (added : Z) : M W Z :=
  b ← InventoryPage.add_buttons;
  BasePage.click InventoryPage.self (BasePage.TLoc (First b)) false;;
  mret (added + 1).

(** The loop condition of [add_all_items_to_cart]. *)
Definition any_left : M W bool :=
  b ← InventoryPage.add_buttons;
  n ← query (CCount b) (fun w => Z.of_nat (loc_count b w));
  mret (0 <? n).

(** What one pass through each of them writes into the journal. *)
Definition click_entries : list Event :=
  [Log "InventoryPage" DEBUG ("Create locator: " +:+ InventoryPage.ADD_TO_CART_BTNS);
   Log "InventoryPage" INFO
     ("Click: " +:+ loc_repr (First ADD) +:+ " (force=" +:+ PyStr.of_bool false +:+ ")");
   Did (CClick (First ADD) false)].

Definition count_entries : list Event :=
  [Log "InventoryPage" DEBUG ("Create locator: " +:+ InventoryPage.ADD_TO_CART_BTNS);
   Did (CCount ADD)].

End Loops.

(** Is every click in the list preceded by a count query made after
    the previous click?  [fresh] tells whether such a query is
    pending. *)
Fixpoint count_before_each_click (cs : list Call) (fresh : bool) : bool :=
  match cs with
  | [] => true
  | CCount _ :: r => count_before_each_click r true
  | CClick _ _ :: r => fresh && count_before_each_click r false
  | _ :: r => count_before_each_click r fresh
  end.

Definition is_click (c : Call) : bool :=
  match c with CClick _ _ => true | _ => false end.

End Shop.

(** ** config/settings.py: booleans and the numeric settings *)

Module Environment.
Import PyStr Settings.

(** [str.lower] on one character (code points below 256): the ASCII
    capitals and the accented capitals of Latin-1 move up by 32. *)
Definition lower_char (c : ascii) : ascii :=
  let n := Ascii.N_of_ascii c in
  if ((65 <=? n) && (n <=? 90) || (192 <=? n) && (n <=? 214)
      || (216 <=? n) && (n <=? 222))%N
  then Ascii.ascii_of_N (n + 32) else c.

(** [s.lower()] *)
Fixpoint lower (s : string) : string :=
  match s with
  | EmptyString => EmptyString
  | String c r => String (lower_char c) (lower r)
  end.

(** Is the string made of white space only? *)
Fixpoint blank (s : string) : bool :=
  match s with
  | EmptyString => true
  | String c r => is_space c && blank r
  end.

(** Does the string hold no white space at all? *)
Fixpoint no_space (s : string) : bool :=
  match s with
  | EmptyString => true
  | String c r => negb (is_space c) && no_space r
  end.

Definition _DEF_TRUE : gset string := {["1"; "true"; "yes"; "on"]}.
Definition _DEF_FALSE : gset string := {["0"; "false"; "no"; "off"]}.

Definition _env_bool (env : Env) (name : string) (default : bool) : bool :=
  match env !! name with
  | None => default
  | Some raw =>
      let val := lower (strip raw) in
      if bool_decide (val ∈ _DEF_TRUE) then true
      else if bool_decide (val ∈ _DEF_FALSE) then false
      else default
  end.

(** [int(s)] for a [str], with its exception. *)
Definition int_of (s : string) : PyError + Z :=
  match to_int s with
  | Some n => inr n
  | None => inl (ValueError ("invalid literal for int() with base 10: '" +:+ s +:+ "'"))
  end.

Record UISettings := mkUISettings {
  base_url : string;
  timeout : Z;
  headless : bool;
  slowmo : Z
}.

(** The class body of [UISettings], the first of the module: its
    defaults, evaluated in order. *)
Definition ui_settings_of (env : Env) : PyError + UISettings :=
  let base := getenv env "BASE_URL" "https://www.saucedemo.com" in
  match int_of (getenv env "UI_TIMEOUT" "10000") with
  | inl e => inl e
  | inr t =>
      let h := _env_bool env "HEADLESS" true in
      match int_of (getenv env "SLOWMO" "0") with
      | inl e => inl e
      | inr s => inr (mkUISettings base t h s)
      end
  end.

Record APICallSettings := mkAPICallSettings {
  api_base_url : string;
  api_timeout : Z
}.

(** The module's four objects. *)
Record SettingsModule := mkSettingsModule {
  ui_settings : UISettings;
  api_settings : APICallSettings;
  credentials : Credentials;
  airports : AirportData
}.

(** Importing [config.settings] in the environment [env] (as it is after
    [load_dotenv]): the class bodies run in the order of the file, so an
    exception in one of them ends the import and none of the objects
    exists. *)
Definition import_settings (env : Env) : PyError + SettingsModule :=
  match ui_settings_of env with
  | inl e => inl e
  | inr ui =>
      let api_base := getenv env "AIRPORT_GAP_BASE_URL" "https://airportgap.com/" in
      match int_of (getenv env "API_TIMEOUT" "10000") with
      | inl e => inl e
      | inr t =>
          inr {| ui_settings := ui;
                 api_settings := mkAPICallSettings api_base t;
                 credentials := credentials_of env;
                 airports :=
                   {| expected_airports_csv :=
                        getenv env "AIRPORTS_EXPECTED"
                          "Akureyri Airport,St. Anthony Airport,CFB Bagotville";
                      distance_from := getenv env "AIRPORT_DISTANCE_FROM" "KIX";
                      distance_to := getenv env "AIRPORT_DISTANCE_TO" "NRT" |} |}
      end
  end.

End Environment.

(** ** The fields of the airport list *)

Module Fields.
Import PyStr Settings Environment.

(** The white space a string starts with. *)
Fixpoint leading (s : string) : string :=
  match s with
  | EmptyString => EmptyString
  | String c r => if is_space c then String c (leading r) else EmptyString
  end.

(** The white space a string ends with. *)
Fixpoint trailing (s : string) : string :=
  match s with
  | EmptyString => EmptyString
  | String c r =>
      if is_space c && negb (truthy (rstrip r)) then s else trailing r
  end.

(** One comma-separated field seen as white space, a name (possibly
    empty), white space. *)
Definition Field : Type := string * string * string.

Definition name_of (f : Field) : string := snd (fst f).

Definition assemble (f : Field) : string :=
  fst (fst f) +:+ name_of f +:+ snd f.

Definition padded_field (f : Field) : Prop :=
  blank (fst (fst f)) = true
  /\ blank (snd f) = true
  /\ (name_of f = EmptyString \/ clean_name (name_of f)).

(** The fields of a comma-separated text. *)
Definition fields_of (csv : string) : list Field :=
  map (fun f => (leading f, strip f, trailing (lstrip f))) (split "," csv).

End Fields.

(** ** The calls of the open loop *)

Module Rounds.
Import Playwright.

(** [k] rounds of count-then-click on the add buttons, and the count
    that ends the loop. *)
Fixpoint rounds (k : nat) : list Call :=
  match k with
  | O => [CCount Shop.ADD]
  | S k' => CCount Shop.ADD :: CClick (First Shop.ADD) false :: rounds k'
  end.

End Rounds.

(** ** Comparing two runs *)

Module Effects.
Import Playwright.

(** Two runs end alike: same outcome, same page, same browser calls. *)
Definition same_effect {W A} (x y : Outcome A * Run W) : Prop :=
  fst x = fst y
  /\ page (snd x) = page (snd y)
  /\ calls (journal (snd x)) = calls (journal (snd y)).

End Effects.

(** ** The state of cached loggers *)

Module LoggerState.

(** The logger is registered, and is as a finished [setup_logger] leaves
    it. *)
Definition configured (cfg : Logger.Config) (p : Logger.Process) (key : string) : Prop :=
  exists o,
    Logger.manager p !! key = Some o
    /\ Logger.level o = Logger.LOG_LEVEL cfg
    /\ Logger.propagate o = false
    /\ Logger.handlers o <> [].

(** Every cached name refers to its own logger, and that logger is
    configured. *)
Definition cache_sound (cfg : Logger.Config) (p : Logger.Process) : Prop :=
  forall name l,
    Logger._loggers p !! name = Some l ->
    l = Logger.logger_key name /\ configured cfg p l.

End LoggerState.

(** ** A page whose add buttons stay *)

Module Frozen.
Import Playwright.

(** A shelf of add buttons on which clicking has no effect (as on a
    page whose script failed to load). *)
Record Shelf := mkShelf { buttons : nat }.

Fixpoint shelf_count (l : Locator) (w : Shelf) : nat :=
  match l with
  | Css s => if String.eqb s InventoryPage.ADD_TO_CART_BTNS then buttons w else O
  | First l' => Nat.min 1 (shelf_count l' w)
  end.

Definition shelf_click (l : Locator) (force : bool) (w : Shelf) : PyError + Shelf :=
  match shelf_count l w with
  | O => SauceDemo.timeout l
  | S O => inr w
  | S (S _) => inl (AssertionError "strict mode violation")
  end.

#[global] Instance shelf_browser : Browser Shelf := {|
  loc_count := shelf_count;
  loc_is_visible := fun l w => inr (negb (Nat.eqb (shelf_count l w) 0));
  loc_text_content := fun l w =>
    if Nat.eqb (shelf_count l w) 0 then SauceDemo.timeout l else inr (Some "Add to cart");
  loc_input_value := fun _ _ => None;
  loc_click := shelf_click;
  loc_fill := fun l _ _ => SauceDemo.timeout l;
  expect_to_be_visible := fun l _ w =>
    if Nat.eqb (shelf_count l w) 0
    then inl (AssertionError "Locator expected to be visible") else inr w;
  loc_repr := SauceDemo.repr
|}.

(** Clicking the first add button goes through and leaves an add button
    on the page. *)
Definition click_keeps_buttons {W : Type} `{Browser W} : Prop :=
  forall w, (0 < loc_count Shop.ADD w)%nat ->
    exists w', loc_click (First Shop.ADD) false w = inr w'
               /\ (0 < loc_count Shop.ADD w')%nat.

End Frozen.

(** * Properties *)

(** ** The model at work on small inputs *)

Example strip_samples :
  PyStr.strip "  CFB Bagotville " = "CFB Bagotville"
  /\ PyStr.strip "   " = EmptyString
  /\ PyStr.split "," "a,,b" = ["a"; EmptyString; "b"]
  /\ PyStr.split "," EmptyString = [EmptyString].
Proof. repeat split; reflexivity. Qed.

Example to_int_samples :
  PyStr.to_int "6" = Some 6
  /\ PyStr.to_int " 1_0 " = Some 10
  /\ PyStr.to_int "-0" = Some 0
  /\ PyStr.to_int "1__0" = None
  /\ PyStr.to_int EmptyString = None
  /\ PyStr.to_int (String (Ascii.ascii_of_nat 28) "5") = None
  /\ PyStr.to_int (String (Ascii.ascii_of_nat 160) "5") = Some 5
  /\ PyStr.of_int 6 = "6"
  /\ PyStr.of_int (-12) = "-12".
Proof. repeat split; vm_compute; reflexivity. Qed.

Example default_airports :
  Settings.expected_airports
    (Settings.mkAirportData "Akureyri Airport,St. Anthony Airport,CFB Bagotville"
       "KIX" "NRT")
  = ["Akureyri Airport"; "St. Anthony Airport"; "CFB Bagotville"].
Proof. vm_compute. reflexivity. Qed.

Example add_all_on_three_products :
  let r := Playwright.mkRun (SauceDemo.mkInventory [false; true; false] false) [] in
  fst (InventoryPage.add_all_items_to_cart 3 r) = Playwright.Return 2
  /\ SauceDemo.in_cart (Playwright.page (snd (InventoryPage.add_all_items_to_cart 3 r)))
     = [true; true; true]
  /\ fst (InventoryPage.add_all_items_to_cart 2 r) = Playwright.Unfinished.
Proof. repeat split; reflexivity. Qed.

Example click_on_empty_shelf :
  fst (InventoryPage.add_first_item_to_cart
         (Playwright.mkRun (SauceDemo.mkInventory [true] false) []))
  = Playwright.Raise (TimeoutError "waiting for locator").
Proof. reflexivity. Qed.

(** ** Strings and the airport list *)

Section StringFacts.
Import PyStr.

Lemma rstrip_idem s : rstrip (rstrip s) = rstrip s.
Proof.
  induction s as [|c r IH]; [reflexivity|].
  cbn [rstrip].
  destruct (is_space c && negb (truthy (rstrip r))) eqn:E; [reflexivity|].
  cbn [rstrip]. rewrite IH, E. reflexivity.
Qed.

Lemma rstrip_cons c r :
  is_space c = false -> rstrip (String c r) = String c (rstrip r).
Proof. intros Hc. cbn [rstrip]. rewrite Hc. reflexivity. Qed.

Lemma lstrip_head s :
  lstrip s = EmptyString
  \/ exists c r, lstrip s = String c r /\ is_space c = false.
Proof.
  induction s as [|c r IH]; [left; reflexivity|].
  cbn [lstrip]. destruct (is_space c) eqn:E; [exact IH|].
  right. exists c, r. split; [reflexivity | exact E].
Qed.

Lemma strip_idem s : strip (strip s) = strip s.
Proof.
  unfold strip.
  destruct (lstrip_head s) as [-> | (c & r & -> & Hc)]; [reflexivity|].
  rewrite (rstrip_cons c r Hc). cbn [lstrip]. rewrite Hc.
  rewrite (rstrip_cons c _ Hc), rstrip_idem. reflexivity.
Qed.

Lemma contains_lstrip c s : contains c s = false -> contains c (lstrip s) = false.
Proof.
  induction s as [|d r IH]; [reflexivity|].
  cbn [lstrip]. destruct (is_space d); [|auto].
  cbn [contains]. intros [_ Hr]%orb_false_iff. auto.
Qed.

Lemma contains_rstrip c s : contains c s = false -> contains c (rstrip s) = false.
Proof.
  induction s as [|d r IH]; [reflexivity|].
  cbn [contains rstrip]. intros [Hd Hr]%orb_false_iff.
  destruct (is_space d && negb (truthy (rstrip r))); [reflexivity|].
  cbn [contains]. rewrite Hd, (IH Hr). reflexivity.
Qed.

Lemma contains_strip c s : contains c s = false -> contains c (strip s) = false.
Proof. intros Hs. apply contains_rstrip, contains_lstrip, Hs. Qed.

(** No field of a split holds the separator. *)
Lemma split_fields sep s f : In f (split sep s) -> contains sep f = false.
Proof.
  revert f. induction s as [|c r IH]; intros f; cbn [split].
  - intros [<- | []]. reflexivity.
  - destruct (Ascii.eqb c sep) eqn:E.
    + intros [<- | Hf]; [reflexivity | auto].
    + destruct (split sep r) as [|g gs] eqn:Eg.
      * intros [<- | []]. cbn [contains]. rewrite E. reflexivity.
      * intros [<- | Hf].
        -- cbn [contains]. rewrite E. apply IH. left. reflexivity.
        -- apply IH. right. exact Hf.
Qed.

Lemma split_whole sep s : contains sep s = false -> split sep s = [s].
Proof.
  induction s as [|c r IH]; [reflexivity|].
  cbn [contains split]. intros [Hc Hr]%orb_false_iff.
  rewrite Hc, (IH Hr). reflexivity.
Qed.

Lemma split_app sep x rest :
  contains sep x = false ->
  split sep (x +:+ String sep rest) = x :: split sep rest.
Proof.
  induction x as [|c r IH]; cbn [contains].
  - intros _. change (EmptyString +:+ String sep rest) with (String sep rest).
    cbn [split]. rewrite Ascii.eqb_refl. reflexivity.
  - intros [Hc Hr]%orb_false_iff.
    change (String c r +:+ String sep rest) with (String c (r +:+ String sep rest)).
    cbn [split]. rewrite Hc, (IH Hr). reflexivity.
Qed.

Lemma split_join sep x xs :
  Forall (fun a => contains sep a = false) (x :: xs) ->
  split sep (join sep (x :: xs)) = x :: xs.
Proof.
  revert x. induction xs as [|y ys IH]; intros x Hall.
  - apply split_whole. inversion Hall; assumption.
  - inversion Hall as [|? ? Hx Hrest]; subst.
    change (join sep (x :: y :: ys)) with (x +:+ String sep (join sep (y :: ys))).
    rewrite (split_app sep x _ Hx), (IH y Hrest). reflexivity.
Qed.
End StringFacts.

(** ** White space around a field *)

Section FieldFacts.
Import PyStr Settings Environment Fields.

Lemma lstrip_blank pre s : blank pre = true -> lstrip (pre +:+ s) = lstrip s.
Proof.
  induction pre as [|c r IH]; [reflexivity|].
  cbn [blank]. intros [Hc Hr]%andb_true_iff.
  change (String c r +:+ s) with (String c (r +:+ s)).
  cbn [lstrip]. rewrite Hc. exact (IH Hr).
Qed.

Lemma rstrip_blank post : blank post = true -> rstrip post = EmptyString.
Proof.
  induction post as [|c r IH]; [reflexivity|].
  cbn [blank rstrip]. intros [Hc Hr]%andb_true_iff.
  rewrite (IH Hr), Hc. reflexivity.
Qed.

Lemma rstrip_app_blank s post : blank post = true -> rstrip (s +:+ post) = rstrip s.
Proof.
  intros Hp. induction s as [|c r IH].
  - apply rstrip_blank, Hp.
  - change (String c r +:+ post) with (String c (r +:+ post)).
    cbn [rstrip]. rewrite IH. reflexivity.
Qed.

Lemma lstrip_app s post :
  lstrip (s +:+ post) = if truthy (lstrip s) then lstrip s +:+ post else lstrip post.
Proof.
  induction s as [|c r IH]; [reflexivity|].
  change (String c r +:+ post) with (String c (r +:+ post)).
  cbn [lstrip]. destruct (is_space c); [exact IH | reflexivity].
Qed.

Lemma lstrip_of_blank s : blank s = true -> lstrip s = EmptyString.
Proof.
  induction s as [|c r IH]; [reflexivity|].
  cbn [blank lstrip]. intros [-> Hr]%andb_true_iff. exact (IH Hr).
Qed.

(** White space around a value is invisible to [strip]. *)
Lemma strip_padding pre s post :
  blank pre = true -> blank post = true -> strip (pre +:+ s +:+ post) = strip s.
Proof.
  intros Hpre Hpost. unfold strip.
  rewrite (lstrip_blank pre _ Hpre), lstrip_app.
  destruct (truthy (lstrip s)) eqn:E.
  - apply rstrip_app_blank, Hpost.
  - rewrite (lstrip_of_blank post Hpost).
    destruct (lstrip s); [reflexivity | discriminate].
Qed.

Lemma string_app_assoc (a b c : string) : (a +:+ b) +:+ c = a +:+ b +:+ c.
Proof.
  induction a as [|x a IH]; [reflexivity|].
  change ((String x a +:+ b) +:+ c) with (String x ((a +:+ b) +:+ c)).
  rewrite IH. reflexivity.
Qed.

Lemma string_app_empty_r (a : string) : a +:+ EmptyString = a.
Proof.
  induction a as [|x a IH]; [reflexivity|].
  change (String x a +:+ EmptyString) with (String x (a +:+ EmptyString)).
  rewrite IH. reflexivity.
Qed.

Lemma contains_app c a b :
  contains c (a +:+ b) = contains c a || contains c b.
Proof.
  induction a as [|x a IH]; [reflexivity|].
  change (String x a +:+ b) with (String x (a +:+ b)).
  cbn [contains]. rewrite IH, orb_assoc. reflexivity.
Qed.

Lemma blank_no_comma s : blank s = true -> contains "," s = false.
Proof.
  induction s as [|c r IH]; [reflexivity|].
  cbn [blank contains]. intros [Hc Hr]%andb_true_iff. rewrite (IH Hr), orb_false_r.
  destruct (Ascii.eqb_spec c ",") as [->|]; [discriminate Hc | reflexivity].
Qed.

Lemma leading_lstrip s : leading s +:+ lstrip s = s.
Proof.
  induction s as [|c r IH]; [reflexivity|].
  cbn [leading lstrip]. destruct (is_space c); [|reflexivity].
  change (String c (leading r) +:+ lstrip r) with (String c (leading r +:+ lstrip r)).
  rewrite IH. reflexivity.
Qed.

Lemma blank_leading s : blank (leading s) = true.
Proof.
  induction s as [|c r IH]; [reflexivity|].
  cbn [leading]. destruct (is_space c) eqn:E; [|reflexivity].
  cbn [blank]. rewrite E, IH. reflexivity.
Qed.

Lemma rstrip_empty_blank s : rstrip s = EmptyString -> blank s = true.
Proof.
  induction s as [|c r IH]; [reflexivity|].
  cbn [rstrip blank].
  destruct (is_space c) eqn:Ec; cbn [andb]; [|discriminate].
  destruct (rstrip r) eqn:Er; cbn [truthy negb]; [|discriminate].
  intros _. apply IH. reflexivity.
Qed.

Lemma rstrip_trailing s : rstrip s +:+ trailing s = s.
Proof.
  induction s as [|c r IH]; [reflexivity|].
  cbn [rstrip trailing].
  destruct (is_space c && negb (truthy (rstrip r))); [reflexivity|].
  change (String c (rstrip r) +:+ trailing r) with (String c (rstrip r +:+ trailing r)).
  rewrite IH. reflexivity.
Qed.

Lemma blank_trailing s : blank (trailing s) = true.
Proof.
  induction s as [|c r IH]; [reflexivity|].
  cbn [trailing].
  destruct (is_space c && negb (truthy (rstrip r))) eqn:E; [|exact IH].
  apply andb_true_iff in E as [Hc Hr]. cbn [blank]. rewrite Hc.
  apply rstrip_empty_blank. destruct (rstrip r); [reflexivity | discriminate].
Qed.

(** A field is its leading white space, its trimmed text and its
    trailing white space. *)
Lemma field_decomposition f :
  leading f +:+ strip f +:+ trailing (lstrip f) = f.
Proof.
  unfold strip. rewrite rstrip_trailing. apply leading_lstrip.
Qed.

Lemma join_split sep s : join sep (split sep s) = s.
Proof.
  induction s as [|c r IH]; [reflexivity|].
  cbn [split]. destruct (Ascii.eqb_spec c sep) as [->|Hne].
  - destruct (split sep r) as [|f fs] eqn:E.
    + destruct r; cbn [split] in E; [discriminate|].
      destruct (Ascii.eqb _ sep); [discriminate|].
      destruct (split sep r); discriminate.
    + change (join sep (EmptyString :: f :: fs))
        with (EmptyString +:+ String sep (join sep (f :: fs))).
      rewrite IH. reflexivity.
  - destruct (split sep r) as [|f fs] eqn:E.
    + destruct r; cbn [split] in E; [discriminate|].
      destruct (Ascii.eqb _ sep); [discriminate|].
      destruct (split sep r); discriminate.
    + rewrite <- IH. destruct fs as [|g gs]; reflexivity.
Qed.

Lemma padded_field_strip f :
  padded_field f -> strip (assemble f) = name_of f /\ contains "," (assemble f) = false.
Proof.
  destruct f as [[pre n] post]. unfold padded_field, assemble, name_of.
  cbn [fst snd]. intros (Hpre & Hpost & Hn). split.
  - rewrite (strip_padding pre n post Hpre Hpost).
    destruct Hn as [-> | (_ & Hs & _)]; [reflexivity | exact Hs].
  - rewrite !contains_app, (blank_no_comma pre Hpre), (blank_no_comma post Hpost).
    destruct Hn as [-> | (_ & _ & Hc)]; [reflexivity | rewrite Hc; reflexivity].
Qed.

(** The parsed list of a text given by its fields. *)
Lemma expected_airports_fields fields from to :
  Forall padded_field fields ->
  expected_airports (mkAirportData (join "," (map assemble fields)) from to)
  = List.filter truthy (map name_of fields).
Proof.
  intros Hall. unfold expected_airports. cbn [expected_airports_csv].
  destruct fields as [|f fs]; [reflexivity|].
  change (map assemble (f :: fs)) with (assemble f :: map assemble fs).
  rewrite split_join.
  2:{ change (assemble f :: map assemble fs) with (map assemble (f :: fs)).
      apply List.Forall_forall. intros x Hx. apply in_map_iff in Hx as (g & <- & Hg).
      apply (proj2 (padded_field_strip g (proj1 (List.Forall_forall _ _) Hall g Hg))). }
  change (assemble f :: map assemble fs) with (map assemble (f :: fs)).
  induction Hall as [|g gs Hg Hgs IH]; [reflexivity|].
  cbn [map List.filter]. rewrite (proj1 (padded_field_strip g Hg)).
  destruct (truthy (name_of g)); cbn [map]; rewrite ?(proj1 (padded_field_strip g Hg));
    [f_equal|]; exact IH.
Qed.

(** Every text is given by its fields. *)
Lemma fields_of_spec csv :
  Forall padded_field (fields_of csv)
  /\ join "," (map assemble (fields_of csv)) = csv.
Proof.
  unfold fields_of. split.
  - apply List.Forall_forall. intros x Hx. apply in_map_iff in Hx as (f & <- & Hf).
    unfold padded_field, name_of. cbn [fst snd].
    split; [apply blank_leading|]. split; [apply blank_trailing|].
    destruct (strip f) as [|c r] eqn:E; [left; reflexivity|]. right.
    rewrite <- E. repeat split.
    + rewrite E. reflexivity.
    + apply strip_idem.
    + apply contains_strip, (split_fields _ _ _ Hf).
  - rewrite map_map.
    rewrite (map_ext _ (fun f => f)), map_id; [apply join_split|].
    intros f. unfold assemble, name_of. cbn [fst snd]. apply field_decomposition.
Qed.

End FieldFacts.

Lemma expected_airports_clean d a :
  In a (Settings.expected_airports d) -> Settings.clean_name a.
Proof.
  unfold Settings.expected_airports. intros Ha.
  apply in_map_iff in Ha as (x & <- & Hx).
  apply filter_In in Hx as [Hx Ht].
  repeat split; [exact Ht | apply strip_idem |].
  apply contains_strip, (split_fields _ _ _ Hx).
Qed.

Lemma expected_airports_join names from to :
  Forall Settings.clean_name names ->
  Settings.expected_airports (Settings.mkAirportData (PyStr.join "," names) from to)
  = names.
Proof.
  intros Hall. unfold Settings.expected_airports. cbn [Settings.expected_airports_csv].
  destruct names as [|x xs]; [reflexivity|].
  rewrite split_join.
  2:{ eapply Forall_impl; [exact Hall|]. intros a (_ & _ & Ha). exact Ha. }
  induction Hall as [|a l (Ht & Hs & Hc) Hl IH]; [reflexivity|].
  cbn [List.filter]. rewrite Hs, Ht. cbn [map]. rewrite Hs. f_equal. exact IH.
Qed.

(** C7.  Parsing the CSV string "A, B ,,C" gives exactly the ordered list
    A, B, C: the string is split on commas, every entry is trimmed, the
    entry that is empty after trimming is dropped, and the order of the
    others is kept. *)
Theorem expected_airports_example (from to : string) :
  Settings.expected_airports (Settings.mkAirportData "A, B ,,C" from to)
  = ["A"; "B"; "C"]
  /\ PyStr.split "," "A, B ,,C" = ["A"; " B "; ""; "C"]
  /\ map PyStr.strip ["A"; " B "; ""; "C"] = ["A"; "B"; ""; "C"].
Proof. repeat split; reflexivity. Qed.

(** C6 (as the code has it).  Every entry of the parsed list is non-empty,
    trimmed and free of commas, so blank entries are dropped; names that
    occur several times in the input are all kept, each at its place.
    Every input is a comma-joined list of fields, a field being a name
    (or nothing) with white space around it, and the parsed list is the
    list of the names of the fields that have one, in order and with
    every repetition.  In particular, parsing the comma-joined text of
    any list of clean names gives that very list back. *)
Theorem expected_airports_keeps_duplicates :
  (forall d a, In a (Settings.expected_airports d) -> Settings.clean_name a)
  /\ (forall names from to,
        Forall Settings.clean_name names ->
        Settings.expected_airports
          (Settings.mkAirportData (PyStr.join "," names) from to) = names)
  /\ (forall fields from to,
        Forall Fields.padded_field fields ->
        Settings.expected_airports
          (Settings.mkAirportData
             (PyStr.join "," (map Fields.assemble fields)) from to)
        = List.filter PyStr.truthy (map Fields.name_of fields))
  /\ (forall csv,
        Forall Fields.padded_field (Fields.fields_of csv)
        /\ PyStr.join "," (map Fields.assemble (Fields.fields_of csv)) = csv)
  /\ (forall csv from to,
        Settings.expected_airports (Settings.mkAirportData csv from to)
        = List.filter PyStr.truthy (map Fields.name_of (Fields.fields_of csv))).
Proof.
  split; [exact expected_airports_clean|].
  split; [exact expected_airports_join|].
  split; [exact expected_airports_fields|].
  split; [exact fields_of_spec|].
  intros csv from to.
  rewrite <- (proj2 (fields_of_spec csv)) at 1.
  apply expected_airports_fields, fields_of_spec.
Qed.

(** A name given twice, the second time with white space around it and
    followed by an empty field, is parsed twice. *)
Lemma expected_airports_keeps_duplicates_witness :
  Forall Fields.padded_field
    [(EmptyString, "Akureyri Airport", EmptyString);
     (" ", "Akureyri Airport", " ");
     (EmptyString, EmptyString, EmptyString);
     (EmptyString, "CFB Bagotville", EmptyString)]
  /\ Settings.expected_airports
       (Settings.mkAirportData
          "Akureyri Airport, Akureyri Airport ,,CFB Bagotville" "KIX" "NRT")
     = ["Akureyri Airport"; "Akureyri Airport"; "CFB Bagotville"].
Proof.
  assert (Hall : Forall Fields.padded_field
                   [(EmptyString, "Akureyri Airport", EmptyString);
                    (" ", "Akureyri Airport", " ");
                    (EmptyString, EmptyString, EmptyString);
                    (EmptyString, "CFB Bagotville", EmptyString)]).
  { repeat constructor; try reflexivity;
      first [left; reflexivity | right; repeat split; reflexivity]. }
  split; [exact Hall|].
  exact (proj1 (proj2 (proj2 expected_airports_keeps_duplicates)) _ "KIX" "NRT" Hall).
Defined.

(** C6 fails as stated: a name given twice appears twice in the parsed
    list. *)
Lemma expected_airports_duplicates_counterexample :
  ~ NoDup (Settings.expected_airports
             (Settings.mkAirportData "Akureyri Airport,Akureyri Airport" "KIX" "NRT")).
Proof.
  change (~ NoDup ["Akureyri Airport"; "Akureyri Airport"]).
  intros H. inversion H as [|? ? Hn _]; subst. apply Hn. constructor.
Qed.

(** ** Running page-object programs *)

Section Running.
Import Playwright BasePage Journal.
Context {W : Type} `{Browser W}.

Lemma bind_returns {A B} (m : M W A) (k : A -> M W B) r a r' :
  m r = (Return a, r') -> (m ≫= k) r = k a r'.
Proof. intros E. unfold mbind, M_bind, bind. rewrite E. reflexivity. Qed.

Lemma bind_run {A B} (m : M W A) (k : A -> M W B) r :
  (m ≫= k) r =
  match m r with
  | (Return a, r') => k a r'
  | (Raise e, r') => (Raise e, r')
  | (Unfinished, r') => (Unfinished, r')
  end.
Proof. reflexivity. Qed.

Lemma bind_raises {A B} (m : M W A) (k : A -> M W B) r e r' :
  m r = (Raise e, r') -> (m ≫= k) r = (Raise e, r').
Proof. intros E. unfold mbind, M_bind, bind. rewrite E. reflexivity. Qed.

Lemma log_run self lvl msg (r : Run W) :
  log self lvl msg r
  = (Return tt, mkRun (page r) (journal r ++ [Log (cls_name self) lvl msg])).
Proof. reflexivity. Qed.

Lemma locator_run self sel (r : Run W) :
  locator self sel r
  = (Return (Css sel),
     mkRun (page r)
       (journal r ++ [Log (cls_name self) DEBUG ("Create locator: " +:+ sel)])).
Proof. reflexivity. Qed.

Lemma query_run {A} c (f : W -> A) (r : Run W) :
  query c f r = (Return (f (page r)), mkRun (page r) (journal r ++ [Did c])).
Proof. reflexivity. Qed.

Lemma calls_app j1 j2 : calls (j1 ++ j2) = calls j1 ++ calls j2.
Proof. apply omap_app. Qed.

Lemma ensure_locator_run self target (r : Run W) :
  _ensure_locator self target r
  = (Return (target_locator target),
     mkRun (page r) (journal r ++ target_entries self target)).
Proof.
  destruct target; cbn [_ensure_locator target_locator target_entries].
  - apply locator_run.
  - rewrite app_nil_r. destruct r. reflexivity.
Qed.

Lemma click_run self target force (r : Run W) :
  click self target force r =
  match loc_click (target_locator target) force (page r) with
  | inr w' => (Return tt, mkRun w' (journal r ++ click_entries_of self target force))
  | inl e => (Raise e, mkRun (page r) (journal r ++ click_entries_of self target force))
  end.
Proof.
  unfold click, click_entries_of.
  erewrite bind_returns by apply ensure_locator_run.
  erewrite bind_returns by apply log_run.
  unfold action. cbn [page journal]. rewrite <- !app_assoc.
  destruct (loc_click _ _ _); reflexivity.
Qed.

Lemma get_text_run self target (r : Run W) :
  get_text self target r =
  match loc_text_content (target_locator target) (page r) with
  | inr content =>
      (Return (PyStr.strip (PyStr.or_default content EmptyString)),
       mkRun (page r) (journal r ++ text_entries_of self target content))
  | inl e =>
      (Raise e,
       mkRun (page r)
         (journal r ++ target_entries self target
          ++ [Did (CTextContent (target_locator target))]))
  end.
Proof.
  unfold get_text, text_entries_of.
  erewrite bind_returns by apply ensure_locator_run.
  unfold try_query, mbind at 1, M_bind, bind at 1. cbn [page journal].
  rewrite <- !app_assoc.
  destruct (loc_text_content _ _) as [e|content]; [reflexivity|].
  erewrite bind_returns by apply log_run.
  cbn [page journal]. rewrite <- !app_assoc. reflexivity.
Qed.

Lemma is_visible_run self target (r : Run W) :
  is_visible self target r =
  match loc_is_visible (target_locator target) (page r) with
  | inr visible =>
      (Return visible,
       mkRun (page r) (journal r ++ visible_entries_of self target visible))
  | inl e =>
      (Raise e,
       mkRun (page r)
         (journal r ++ target_entries self target
          ++ [Did (CIsVisible (target_locator target))]))
  end.
Proof.
  unfold is_visible, visible_entries_of.
  erewrite bind_returns by apply ensure_locator_run.
  rewrite bind_run. unfold try_query. cbn [page journal].
  rewrite <- !app_assoc.
  destruct (loc_is_visible _ _) as [e|visible]; [reflexivity|].
  erewrite bind_returns by apply log_run.
  cbn [page journal]. rewrite <- !app_assoc. reflexivity.
Qed.

Lemma expect_visible_run self target timeout (r : Run W) :
  expect_visible self target timeout r =
  match expect_to_be_visible (target_locator target) timeout (page r) with
  | inr w' =>
      (Return (target_locator target),
       mkRun w' (journal r ++ expect_entries_of self target timeout))
  | inl e =>
      (Raise e, mkRun (page r) (journal r ++ expect_entries_of self target timeout))
  end.
Proof.
  unfold expect_visible, expect_entries_of.
  erewrite bind_returns by apply ensure_locator_run.
  erewrite bind_returns by apply log_run.
  unfold action, mbind at 1, M_bind, bind at 1. cbn [page journal].
  rewrite <- !app_assoc.
  destruct (expect_to_be_visible _ _ _); reflexivity.
Qed.
End Running.

(** ** Adding items to the cart *)

Section Inventory.
Import Playwright BasePage InventoryPage Journal Shop.
Context {W : Type} `{Browser W}.

Lemma add_one_run added r :
  add_one added r =
  match loc_click (First ADD) false (page r) with
  | inr w' => (Return (added + 1), mkRun w' (journal r ++ click_entries))
  | inl e => (Raise e, mkRun (page r) (journal r ++ click_entries))
  end.
Proof.
  unfold add_one, add_buttons, locator, click, _ensure_locator, log, note, action.
  unfold mbind, M_bind, bind, mret, M_ret, ret. cbn [page journal].
  rewrite <- !app_assoc. cbn [app].
  destruct (loc_click _ _ _); reflexivity.
Qed.

Lemma any_left_run r :
  any_left r =
  (Return (0 <? Z.of_nat (loc_count ADD (page r))),
   mkRun (page r) (journal r ++ count_entries)).
Proof.
  unfold any_left, add_buttons, locator, log, note, query.
  unfold mbind, M_bind, bind, mret, M_ret, ret. cbn [page journal].
  rewrite <- !app_assoc. reflexivity.
Qed.

Lemma clicks_available :
  click_removes_one ->
  forall k w, (k <= loc_count ADD w)%nat ->
    exists w', clicks k w = inr w'
               /\ loc_count ADD w' = (loc_count ADD w - k)%nat.
Proof.
  intros Hlaw. induction k as [|k IH]; intros w Hk; cbn [clicks].
  - exists w. split; [reflexivity | lia].
  - destruct (Hlaw w) as (w1 & -> & Hc1); [lia|].
    destruct (IH w1) as (w2 & -> & Hc2); [lia|].
    exists w2. split; [reflexivity | lia].
Qed.

(** The counted loop, when the clicks go through. *)
Lemma for_loop_clicks k : forall i acc r w',
  clicks k (page r) = inr w' ->
  exists d,
    for_loop k i (fun _ => add_one) acc r
    = (Return (acc + Z.of_nat k), mkRun w' (journal r ++ d))
    /\ calls d = replicate k (CClick (First ADD) false).
Proof.
  induction k as [|k IH]; intros i acc r w'; cbn [clicks for_loop].
  - intros [= <-]. exists []. rewrite app_nil_r, Z.add_0_r.
    destruct r; split; reflexivity.
  - destruct (loc_click (First ADD) false (page r)) as [e|w1] eqn:E; [discriminate|].
    intros Hk. unfold bind at 1. rewrite add_one_run, E.
    destruct (IH (i + 1) (acc + 1) (mkRun w1 (journal r ++ click_entries)) w' Hk)
      as (d & -> & Hd).
    exists (click_entries ++ d). cbn [journal]. rewrite <- app_assoc.
    split.
    + replace (acc + Z.of_nat (S k)) with (acc + 1 + Z.of_nat k) by lia.
      reflexivity.
    + unfold calls in *. rewrite omap_app, Hd. reflexivity.
Qed.

(** The counted loop in any browser: whatever happens, its journal
    holds clicks only, at most [k] of them. *)
Lemma for_loop_journal k : forall i acc r,
  exists d j,
    snd (for_loop k i (fun _ => add_one) acc r)
    = mkRun (page (snd (for_loop k i (fun _ => add_one) acc r))) (journal r ++ d)
    /\ calls d = replicate j (CClick (First ADD) false)
    /\ (j <= k)%nat
    /\ (forall v, fst (for_loop k i (fun _ => add_one) acc r) = Return v -> j = k).
Proof.
  induction k as [|k IH]; intros i acc r; cbn [for_loop].
  - exists [], O. rewrite app_nil_r. destruct r. repeat split; auto.
  - unfold bind at 1 2 3. rewrite add_one_run.
    destruct (loc_click (First ADD) false (page r)) as [e|w1] eqn:E.
    + exists click_entries, 1%nat. cbn [snd fst page]. repeat split; [lia|discriminate].
    + destruct (IH (i + 1) (acc + 1) (mkRun w1 (journal r ++ click_entries)))
        as (d & j & Hs & Hd & Hj & Hret).
      exists (click_entries ++ d), (S j). rewrite app_assoc.
      split; [exact Hs|]. split.
      * unfold calls in *. rewrite omap_app, Hd. reflexivity.
      * split; [lia|]. intros v Hv. f_equal. eauto.
Qed.

(** The open loop, when each click removes one button: after as many
    rounds as there were buttons the count is zero and the loop ends. *)
Lemma while_loop_clicks :
  click_removes_one ->
  forall a fuel acc r,
    loc_count ADD (page r) = a -> (a < fuel)%nat ->
    exists w' d,
      while_loop fuel any_left add_one acc r
      = (Return (acc + Z.of_nat a), mkRun w' (journal r ++ d))
      /\ clicks a (page r) = inr w'
      /\ loc_count ADD w' = O.
Proof.
  intros Hlaw. induction a as [|a IH]; intros fuel acc r Ha Hfuel;
    (destruct fuel as [|fuel]; [lia|]); cbn [while_loop clicks];
    unfold bind at 1; rewrite any_left_run, Ha.
  - exists (page r), count_entries. rewrite Z.add_0_r. repeat split. exact Ha.
  - replace (0 <? Z.of_nat (S a)) with true by (symmetry; apply Z.ltb_lt; lia).
    destruct (Hlaw (page r)) as (w1 & E & Hc1); [lia|].
    unfold bind at 1. rewrite add_one_run. cbn [page journal]. rewrite E.
    destruct (IH fuel (acc + 1)
                (mkRun w1 ((journal r ++ count_entries) ++ click_entries)))
      as (w' & d & -> & Hk & Hz); [cbn [page]; lia | lia |].
    exists w', (count_entries ++ click_entries ++ d).
    cbn [journal]. rewrite <- !app_assoc.
    replace (acc + Z.of_nat (S a)) with (acc + 1 + Z.of_nat a) by lia.
    repeat split; assumption.
Qed.

(** The open loop in any browser: if it returns, a count query came
    before every click, the last query found no button, and the
    result counts the clicks. *)
Lemma while_loop_returns fuel : forall acc r added r',
  while_loop fuel any_left add_one acc r = (Return added, r') ->
  exists d,
    journal r' = journal r ++ d
    /\ (forall fresh, count_before_each_click (calls d) fresh = true)
    /\ loc_count ADD (page r') = O
    /\ added = acc + Z.of_nat (length (List.filter is_click (calls d))).
Proof.
  induction fuel as [|fuel IH]; intros acc r added r'; cbn [while_loop];
    [discriminate|].
  unfold bind at 1. rewrite any_left_run.
  destruct (0 <? Z.of_nat (loc_count ADD (page r))) eqn:E.
  - unfold bind at 1. rewrite add_one_run. cbn [page journal].
    destruct (loc_click (First ADD) false (page r)) as [e|w1]; [discriminate|].
    intros (d & Hj & Hq & Hz & Hn)%IH. cbn [journal page] in *.
    exists (count_entries ++ click_entries ++ d).
    rewrite Hj, <- !app_assoc. split; [reflexivity|].
    unfold calls in *. rewrite !omap_app.
    split; [intros fresh; cbn; apply Hq|].
    split; [exact Hz|]. rewrite Hn. cbn. lia.
  - intros [= <- <-]. cbn [page journal]. exists count_entries.
    apply Z.ltb_ge in E. repeat split; [lia | cbn; lia].
Qed.

(** The open loop in any browser, call by call: if it returns after
    [k] clicks, its calls are [k] rounds of count-then-click and one
    last count; every count that was followed by a click found a button
    on the page as it then was, and the last one found none. *)
Lemma while_loop_trace fuel : forall acc r added r',
  while_loop fuel any_left add_one acc r = (Return added, r') ->
  exists k d,
    added = acc + Z.of_nat k
    /\ journal r' = journal r ++ d
    /\ calls d = Rounds.rounds k
    /\ clicks k (page r) = inr (page r')
    /\ (forall j w, (j < k)%nat -> clicks j (page r) = inr w ->
                    (0 < loc_count ADD w)%nat)
    /\ loc_count ADD (page r') = O.
Proof.
  induction fuel as [|fuel IH]; intros acc r added r'; cbn [while_loop];
    [discriminate|].
  unfold bind at 1. rewrite any_left_run.
  destruct (0 <? Z.of_nat (loc_count ADD (page r))) eqn:E.
  - unfold bind at 1. rewrite add_one_run. cbn [page journal].
    destruct (loc_click (First ADD) false (page r)) as [e|w1] eqn:Ec; [discriminate|].
    intros (k & d & Ha & Hj & Hd & Hk & Hpos & Hz)%IH. cbn [journal page] in *.
    exists (S k), (count_entries ++ click_entries ++ d).
    split; [lia|]. split; [rewrite Hj, <- !app_assoc; reflexivity|].
    split; [rewrite !calls_app, Hd; reflexivity|].
    split; [cbn [clicks]; rewrite Ec; exact Hk|].
    split; [|exact Hz].
    intros [|j] w Hlt; cbn [clicks].
    + intros [= <-]. apply Z.ltb_lt in E. lia.
    + rewrite Ec. apply Hpos. lia.
  - intros [= <- <-]. cbn [page journal]. exists O, count_entries.
    apply Z.ltb_ge in E. rewrite Z.add_0_r.
    repeat split; [intros j w Hlt; lia | lia].
Qed.

(** Conversely: once [k] clicks have gone through, each on a page that
    still had a button, and no button is left, the loop has ended,
    whatever the budget above [k]. *)
Lemma while_loop_ends k : forall fuel acc r w',
  clicks k (page r) = inr w' ->
  (forall j w, (j < k)%nat -> clicks j (page r) = inr w ->
               (0 < loc_count ADD w)%nat) ->
  loc_count ADD w' = O ->
  (k < fuel)%nat ->
  exists d,
    while_loop fuel any_left add_one acc r
    = (Return (acc + Z.of_nat k), mkRun w' (journal r ++ d))
    /\ calls d = Rounds.rounds k.
Proof.
  induction k as [|k IH]; intros fuel acc r w' Hk Hpos Hz Hfuel;
    (destruct fuel as [|fuel]; [lia|]); cbn [while_loop clicks] in *;
    unfold bind at 1; rewrite any_left_run.
  - injection Hk as <-. rewrite Hz. cbn [Z.of_nat Z.ltb Z.compare].
    exists count_entries. rewrite Z.add_0_r. split; reflexivity.
  - assert (H0 : (0 < loc_count ADD (page r))%nat)
      by (apply (Hpos O (page r)); [lia | reflexivity]).
    replace (0 <? Z.of_nat (loc_count ADD (page r))) with true
      by (symmetry; apply Z.ltb_lt; lia).
    unfold bind at 1. rewrite add_one_run. cbn [page journal].
    destruct (loc_click (First ADD) false (page r)) as [e|w1] eqn:Ec; [discriminate|].
    destruct (IH fuel (acc + 1)
                (mkRun w1 ((journal r ++ count_entries) ++ click_entries)) w')
      as (d & -> & Hd); [exact Hk | | exact Hz | lia |].
    { intros j w Hlt Hj. apply (Hpos (S j) w); [lia|].
      cbn [clicks]. rewrite Ec. exact Hj. }
    exists (count_entries ++ click_entries ++ d).
    cbn [journal]. rewrite <- !app_assoc.
    replace (acc + Z.of_nat (S k)) with (acc + 1 + Z.of_nat k) by lia.
    split; [reflexivity|]. rewrite !calls_app, Hd. reflexivity.
Qed.

(** Under the law, the pages the clicks go through all have a button
    until the count is used up. *)
Lemma clicks_positive :
  click_removes_one ->
  forall k w j w1,
    (k <= loc_count ADD w)%nat -> (j < k)%nat ->
    clicks j w = inr w1 -> (0 < loc_count ADD w1)%nat.
Proof.
  intros Hlaw k w j w1 Hk Hj Hc.
  destruct (clicks_available Hlaw j w) as (w2 & Hc2 & Hn); [lia|].
  rewrite Hc in Hc2. injection Hc2 as <-. lia.
Qed.

Lemma add_items_to_cart_run number r :
  let a := Z.of_nat (loc_count ADD (page r)) in
  let r1 := mkRun (page r)
              (journal r ++ count_entries
               ++ [Log "InventoryPage" INFO
                     ("Requested to add " +:+ PyStr.of_int number
                      +:+ " items, available add buttons: " +:+ PyStr.of_int a
                      +:+ ". Will add " +:+ PyStr.of_int (Z.min number a) +:+ ".")]) in
  add_items_to_cart number r =
  match for_loop (Z.to_nat (Z.min number a)) 0 (fun _ => add_one) 0 r1 with
  | (Return added, r2) =>
      (Return added,
       mkRun (page r2)
         (journal r2 ++ [Log "InventoryPage" INFO
                           ("Added " +:+ PyStr.of_int added +:+ " items to cart")]))
  | (Raise e, r2) => (Raise e, r2)
  | (Unfinished, r2) => (Unfinished, r2)
  end.
Proof.
  intros a r1. unfold add_items_to_cart, add_buttons, for_range.
  erewrite bind_returns by apply locator_run.
  erewrite bind_returns by apply query_run.
  erewrite bind_returns by apply log_run.
  cbn [page journal]. rewrite <- !app_assoc.
  unfold mbind at 1, M_bind, bind at 1.
  change (for_loop _ 0 _ 0 _)
    with (for_loop (Z.to_nat (Z.min number a)) 0 (fun _ => add_one) 0 r1).
  destruct (for_loop _ _ _ _ _) as [[v| |] r2]; reflexivity.
Qed.

Lemma add_all_items_to_cart_run fuel r :
  add_all_items_to_cart fuel r =
  match while_loop fuel any_left add_one 0 r with
  | (Return added, r2) =>
      (Return added,
       mkRun (page r2)
         (journal r2 ++ [Log "InventoryPage" INFO
                           ("All items added. Total=" +:+ PyStr.of_int added)]))
  | (Raise e, r2) => (Raise e, r2)
  | (Unfinished, r2) => (Unfinished, r2)
  end.
Proof.
  unfold add_all_items_to_cart.
  unfold mbind at 1 2. unfold M_bind, bind at 1 2.
  destruct (while_loop _ _ _ _ _) as [[v| |] r2]; reflexivity.
Qed.

(** C1 (as the code has it).  Provided each click on the first add
    button succeeds and removes exactly that button,
    [add_items_to_cart n] never raises and returns max(0, min(n, a)),
    where a is the number of add buttons at call time: exactly n for
    0 <= n <= a, exactly a for every n above a, and 0 for a negative n;
    as many add buttons as it returns are gone afterwards. *)
Theorem add_items_to_cart_caps :
  click_removes_one ->
  forall number r,
    let a := Z.of_nat (loc_count ADD (page r)) in
    exists added r',
      add_items_to_cart number r = (Return added, r')
      /\ added = Z.max 0 (Z.min number a)
      /\ (0 <= number <= a -> added = number)
      /\ (a < number -> added = a)
      /\ (number < 0 -> added = 0)
      /\ Z.of_nat (loc_count ADD (page r')) = a - added.
Proof.
  intros Hlaw number r a.
  rewrite add_items_to_cart_run. fold a.
  set (r1 := mkRun (page r) _).
  destruct (clicks_available Hlaw (Z.to_nat (Z.min number a)) (page r))
    as (w' & Hk & Hleft); [lia|].
  destruct (for_loop_clicks (Z.to_nat (Z.min number a)) 0 0 r1 w' Hk) as (d & -> & _).
  eexists _, _. split; [reflexivity|]. cbn [page]. lia.
Qed.

(** C2 (as the code has it).  In any browser and whatever the outcome,
    [add_items_to_cart n] queries the add-button count exactly once,
    before the loop; the clicks that follow are bounded by the value read
    then (and are exactly that many when the call returns), with no
    further count query between them.  So a count query precedes each
    click only when there is at most one click. *)
Theorem add_items_to_cart_counts_once :
  forall number r,
    let to_add := Z.to_nat (Z.min number (Z.of_nat (loc_count ADD (page r)))) in
    exists d k,
      journal (snd (add_items_to_cart number r)) = journal r ++ d
      /\ calls d = CCount ADD :: replicate k (CClick (First ADD) false)
      /\ (k <= to_add)%nat
      /\ (forall v, fst (add_items_to_cart number r) = Return v -> k = to_add)
      /\ count_before_each_click (calls d) false = (k <=? 1)%nat.
Proof.
  intros number r to_add.
  rewrite add_items_to_cart_run. fold to_add.
  set (pre := count_entries ++ _).
  assert (Hpre : calls pre = [CCount ADD]) by reflexivity.
  set (r1 := mkRun (page r) (journal r ++ pre)).
  destruct (for_loop_journal to_add 0 0 r1) as (d & k & Hs & Hd & Hk & Hret).
  apply (f_equal journal) in Hs. cbn [journal r1] in Hs.
  assert (Hq : count_before_each_click
                 (CCount ADD :: replicate k (CClick (First ADD) false)) false
               = (k <=? 1)%nat).
  { destruct k as [|[|k]]; reflexivity. }
  destruct (for_loop to_add 0 (fun _ => add_one) 0 r1) as [[v| |] r2] eqn:E;
    cbn [fst snd journal] in *.
  - exists (pre ++ d ++ [Log "InventoryPage" INFO
                           ("Added " +:+ PyStr.of_int v +:+ " items to cart")]), k.
    rewrite Hs, <- !app_assoc. split; [reflexivity|].
    rewrite !calls_app, Hpre, Hd. cbn [calls omap]. rewrite app_nil_r.
    repeat split; eauto.
  - exists (pre ++ d), k. rewrite Hs, <- !app_assoc. split; [reflexivity|].
    rewrite !calls_app, Hpre, Hd. repeat split; [exact Hk | discriminate | exact Hq].
  - exists (pre ++ d), k. rewrite Hs, <- !app_assoc. split; [reflexivity|].
    rewrite !calls_app, Hpre, Hd. repeat split; [exact Hk | discriminate | exact Hq].
Qed.

(** C3.  [add_all_items_to_cart] queries the live add-button count anew
    before every click and once more at the end: in any browser, a run
    that returns after k clicks has made exactly the calls count, click,
    ..., count, click, count on the add buttons, each count that led to
    a click found a button on the page as the clicks before it had left
    it, the last count found none, and k is returned.  Conversely the
    loop ends as soon as that count is zero, whatever the iteration
    budget above k.  When each click removes exactly one add button,
    the loop ends (any budget above the initial count suffices) and
    returns the initial count. *)
Theorem add_all_items_to_cart_requeries :
  (forall fuel r added r',
     add_all_items_to_cart fuel r = (Return added, r') ->
     exists k d,
       added = Z.of_nat k
       /\ calls (journal r') = calls (journal r) ++ d
       /\ d = Rounds.rounds k
       /\ clicks k (page r) = inr (page r')
       /\ (forall j w, (j < k)%nat -> clicks j (page r) = inr w ->
                       (0 < loc_count ADD w)%nat)
       /\ loc_count ADD (page r') = O
       /\ added = Z.of_nat (length (List.filter is_click d)))
  /\ (forall k fuel r w',
        clicks k (page r) = inr w' ->
        (forall j w, (j < k)%nat -> clicks j (page r) = inr w ->
                     (0 < loc_count ADD w)%nat) ->
        loc_count ADD w' = O ->
        (k < fuel)%nat ->
        exists r',
          add_all_items_to_cart fuel r = (Return (Z.of_nat k), r')
          /\ page r' = w'
          /\ calls (journal r') = calls (journal r) ++ Rounds.rounds k)
  /\ (click_removes_one ->
      forall fuel r,
        (loc_count ADD (page r) < fuel)%nat ->
        exists r',
          add_all_items_to_cart fuel r
          = (Return (Z.of_nat (loc_count ADD (page r))), r')
          /\ loc_count ADD (page r') = O
          /\ calls (journal r')
             = calls (journal r) ++ Rounds.rounds (loc_count ADD (page r))).
Proof.
  assert (Hends : forall k fuel r w',
            clicks k (page r) = inr w' ->
            (forall j w, (j < k)%nat -> clicks j (page r) = inr w ->
                         (0 < loc_count ADD w)%nat) ->
            loc_count ADD w' = O ->
            (k < fuel)%nat ->
            exists r',
              add_all_items_to_cart fuel r = (Return (Z.of_nat k), r')
              /\ page r' = w'
              /\ calls (journal r') = calls (journal r) ++ Rounds.rounds k).
  { intros k fuel r w' Hk Hpos Hz Hfuel. rewrite add_all_items_to_cart_run.
    destruct (while_loop_ends k fuel 0 r w' Hk Hpos Hz Hfuel) as (d & -> & Hd).
    eexists. split; [reflexivity|]. cbn [page journal]. split; [reflexivity|].
    rewrite !calls_app, Hd. cbn. rewrite app_nil_r. reflexivity. }
  split; [|split; [exact Hends|]].
  - intros fuel r added r'. rewrite add_all_items_to_cart_run.
    destruct (while_loop fuel any_left add_one 0 r) as [[v| |] r2] eqn:E;
      [|discriminate..].
    intros [= <- <-].
    destruct (while_loop_trace fuel 0 r v r2 E)
      as (k & d & Ha & Hj & Hd & Hk & Hpos & Hz).
    exists k, (Rounds.rounds k). cbn [journal page].
    split; [lia|]. split.
    { rewrite Hj, !calls_app, Hd. cbn. rewrite app_nil_r. reflexivity. }
    split; [reflexivity|]. split; [exact Hk|]. split; [exact Hpos|].
    split; [exact Hz|]. rewrite Ha. f_equal.
    clear. induction k as [|k IH]; [reflexivity|]. cbn. lia.
  - intros Hlaw fuel r Hfuel.
    destruct (clicks_available Hlaw (loc_count ADD (page r)) (page r))
      as (w' & Hk & Hn); [lia|].
    destruct (Hends (loc_count ADD (page r)) fuel r w' Hk) as (r' & E & Hp & Hc);
      [ | lia | exact Hfuel | ].
    { intros j w Hj Hw.
      exact (clicks_positive Hlaw (loc_count ADD (page r)) (page r) j w
               (Nat.le_refl _) Hj Hw). }
    exists r'. split; [exact E|]. split; [rewrite Hp; lia | exact Hc].
Qed.

End Inventory.

(** ** The inventory model obeys the assumptions on the page *)

Section InventoryModel.
Import Playwright SauceDemo Shop.

Lemma addable_add_first l :
  (0 < length (List.filter negb l))%nat ->
  length (List.filter negb (add_first l)) = pred (length (List.filter negb l))
  /\ length (List.filter id (add_first l)) = S (length (List.filter id l))
  /\ length (add_first l) = length l.
Proof.
  induction l as [|[|] l IH]; cbn [List.filter negb id add_first length].
  - lia.
  - intros Hl. destruct (IH Hl) as (-> & -> & ->). auto.
  - intros _. auto.
Qed.

Lemma inventory_click w :
  (0 < addable w)%nat ->
  loc_click (First ADD) false w = inr (mkInventory (add_first (in_cart w)) (zero_badge w)).
Proof.
  intros Hw. change (loc_click (First ADD) false w) with (inv_click (First ADD) false w).
  unfold inv_click. change (inv_count (First ADD) w) with (Nat.min 1 (addable w)).
  replace (Nat.min 1 (addable w)) with 1%nat by lia. reflexivity.
Qed.

Lemma inventory_click_inv w w' :
  loc_click (First ADD) false w = inr w' ->
  (0 < addable w)%nat /\ w' = mkInventory (add_first (in_cart w)) (zero_badge w).
Proof.
  change (loc_click (First ADD) false w) with (inv_click (First ADD) false w).
  unfold inv_click. change (inv_count (First ADD) w) with (Nat.min 1 (addable w)).
  destruct (addable w) as [|n] eqn:E; cbn [Nat.min]; [discriminate|].
  change (String.eqb (root_selector (First ADD)) InventoryPage.ADD_TO_CART_BTNS)
    with true.
  cbv iota. intros [= <-]. split; [lia | reflexivity].
Qed.

Lemma inventory_click_removes_one : click_removes_one (W := Inventory).
Proof.
  intros w Hw. change (loc_count ADD w) with (addable w) in *.
  exists (mkInventory (add_first (in_cart w)) (zero_badge w)).
  split; [apply inventory_click, Hw|].
  change (loc_count ADD ?x) with (addable x).
  apply (addable_add_first (in_cart w)), Hw.
Qed.

Lemma inventory_click_converts : click_converts (W := Inventory).
Proof.
  intros w w' [Hw ->]%inventory_click_inv.
  change (loc_count REMOVE ?x) with (cart_size x).
  change (loc_count ITEMS ?x) with (length (in_cart x)).
  destruct (addable_add_first (in_cart w) Hw) as (_ & Hc & Hl).
  split; [exact Hc | exact Hl].
Qed.

Lemma inventory_one_button_each : one_button_each (W := Inventory).
Proof.
  intros [l z].
  change ((addable (mkInventory l z) + cart_size (mkInventory l z))%nat = length l).
  unfold addable, cart_size. cbn [in_cart].
  induction l as [|[|] l IH]; cbn [List.filter negb id length]; lia.
Qed.

Lemma inventory_badge_shows_cart : badge_shows_cart (W := Inventory).
Proof.
  intros w. change (loc_count REMOVE w) with (cart_size w). intros Hw.
  assert (Hv : inv_visible BADGE w = true).
  { unfold inv_visible.
    change (inv_count BADGE w)
      with (if zero_badge w then 1%nat else Nat.min 1 (cart_size w)).
    destruct (zero_badge w); [reflexivity|].
    replace (Nat.min 1 (cart_size w)) with 1%nat by lia. reflexivity. }
  split.
  - intros t. change (expect_to_be_visible BADGE t w)
      with (if inv_visible BADGE w then @inr PyError _ w
            else inl (AssertionError "Locator expected to be visible")).
    rewrite Hv. reflexivity.
  - change (loc_text_content BADGE w) with (inv_text BADGE w).
    unfold inv_text. rewrite Hv. reflexivity.
Qed.

End InventoryModel.

(** C1 fails as stated for a negative request: with six add buttons,
    [add_items_to_cart (-1)] makes no click and returns 0, which is not
    min(-1, 6) = -1. *)
Lemma add_items_to_cart_negative_counterexample :
  fst (InventoryPage.add_items_to_cart (-1) (Playwright.mkRun SauceDemo.six_products []))
  = Playwright.Return 0
  /\ Z.min (-1) (Z.of_nat (Playwright.loc_count Shop.ADD SauceDemo.six_products)) = -1.
Proof. split; reflexivity. Qed.

(** Nine items requested with six on offer: six are added. *)
Lemma add_items_to_cart_caps_witness :
  exists r',
    InventoryPage.add_items_to_cart 9 (Playwright.mkRun SauceDemo.six_products [])
    = (Playwright.Return 6, r').
Proof.
  destruct (add_items_to_cart_caps inventory_click_removes_one 9
              (Playwright.mkRun SauceDemo.six_products []))
    as (added & r' & E & _ & _ & Hcap & _ & _).
  exists r'. rewrite E, Hcap; reflexivity.
Defined.

(** C2 fails as stated: asked for two of six items, the method reads the
    count once and then clicks twice; the second click has no count query
    before it. *)
Lemma add_items_to_cart_requery_counterexample :
  Playwright.calls
    (Playwright.journal
       (snd (InventoryPage.add_items_to_cart 2
               (Playwright.mkRun SauceDemo.six_products []))))
  = [Playwright.CCount Shop.ADD;
     Playwright.CClick (Playwright.First Shop.ADD) false;
     Playwright.CClick (Playwright.First Shop.ADD) false]
  /\ Shop.count_before_each_click
       (Playwright.calls
          (Playwright.journal
             (snd (InventoryPage.add_items_to_cart 2
                     (Playwright.mkRun SauceDemo.six_products [])))))
       false
     = false.
Proof. split; reflexivity. Qed.

(** Six add buttons, a budget of seven rounds: six rounds of count and
    click, a seventh count, and no button left. *)
Lemma add_all_items_to_cart_requeries_witness :
  exists r',
    InventoryPage.add_all_items_to_cart 7 (Playwright.mkRun SauceDemo.six_products [])
    = (Playwright.Return 6, r')
    /\ Playwright.loc_count Shop.ADD (Playwright.page r') = O
    /\ Playwright.calls (Playwright.journal r') = Rounds.rounds 6.
Proof.
  destruct (proj2 (proj2 add_all_items_to_cart_requeries) inventory_click_removes_one
              7%nat (Playwright.mkRun SauceDemo.six_products []))
    as (r' & E & Hz & Hc); [vm_compute; lia|].
  exists r'. split; [exact E|]. split; [exact Hz | exact Hc].
Defined.

(** ** The cart badge *)

Section Badge.
Import Playwright BasePage InventoryPage Journal Shop.
Context {W : Type} `{Browser W}.

Lemma assert_run cond msg (r : Run W) :
  assert_ cond msg r
  = (if cond then Return tt else Raise (AssertionError msg), r).
Proof. destruct cond; reflexivity. Qed.

Lemma cart_badge_run (r : Run W) :
  cart_badge r
  = (Return BADGE,
     mkRun (page r)
       (journal r ++ [Log "InventoryPage" DEBUG ("Create locator: " +:+ CART_BADGE)])).
Proof. apply locator_run. Qed.

(** Expecting nothing in the cart, with no badge on the page. *)
Lemma assert_cart_count_zero_absent r :
  loc_is_visible BADGE (page r) = inr false ->
  exists d,
    assert_cart_count 0 r = (Return tt, mkRun (page r) (journal r ++ d))
    /\ calls d = [CIsVisible BADGE].
Proof.
  intros Hv. unfold assert_cart_count. cbn [Z.eqb].
  erewrite bind_returns.
  2:{ rewrite is_visible_run. cbn [target_locator]. fold BADGE. rewrite Hv.
      reflexivity. }
  cbn [negb].
  erewrite bind_returns by reflexivity.
  erewrite bind_returns by reflexivity.
  rewrite log_run. cbn [page journal].
  eexists. rewrite <- !app_assoc. split; reflexivity.
Qed.

(** Expecting nothing in the cart, with a badge on the page. *)
Lemma assert_cart_count_zero_visible r content n :
  loc_is_visible BADGE (page r) = inr true ->
  loc_text_content BADGE (page r) = inr content ->
  PyStr.to_int (PyStr.strip (PyStr.or_default content EmptyString)) = Some n ->
  fst (assert_cart_count 0 r)
  = if n =? 0 then Return tt
    else Raise (AssertionError
                  ("Expected empty cart (0) but badge showed " +:+ PyStr.of_int n)).
Proof.
  intros Hv Ht Hn. unfold assert_cart_count. cbn [Z.eqb].
  erewrite bind_returns.
  2:{ rewrite is_visible_run. cbn [target_locator]. fold BADGE. rewrite Hv.
      reflexivity. }
  cbn [negb].
  erewrite bind_returns.
  2:{ erewrite bind_returns by apply cart_badge_run.
      erewrite bind_returns.
      2:{ rewrite get_text_run. cbn [target_locator page]. rewrite Ht. reflexivity. }
      rewrite Hn. reflexivity. }
  unfold mbind at 1, M_bind, bind at 1. rewrite assert_run.
  destruct (n =? 0); reflexivity.
Qed.

(** Expecting a non-empty cart: the wait for the badge fails. *)
Lemma assert_cart_count_wait_fails expected r e :
  expected <> 0 ->
  expect_to_be_visible BADGE 10000 (page r) = inl e ->
  exists d,
    assert_cart_count expected r = (Raise e, mkRun (page r) (journal r ++ d))
    /\ calls d = [CExpectVisible BADGE 10000].
Proof.
  intros Hne He. unfold assert_cart_count.
  rewrite (proj2 (Z.eqb_neq expected 0) Hne).
  erewrite bind_returns by apply cart_badge_run.
  unfold mbind at 1, M_bind, bind at 1. rewrite expect_visible_run.
  cbn [target_locator page journal]. rewrite He.
  eexists. rewrite <- !app_assoc. split; reflexivity.
Qed.

(** Expecting a non-empty cart: the badge shows up and its text is
    read. *)
Lemma assert_cart_count_compares expected r w1 content :
  expected <> 0 ->
  expect_to_be_visible BADGE 10000 (page r) = inr w1 ->
  loc_text_content BADGE w1 = inr content ->
  let actual := PyStr.strip (PyStr.or_default content EmptyString) in
  exists d,
    assert_cart_count expected r
    = (if String.eqb actual (PyStr.of_int expected) then Return tt
       else Raise (AssertionError
                     ("Cart badge expected " +:+ PyStr.of_int expected
                      +:+ " got " +:+ actual)),
       mkRun w1 (journal r ++ d))
    /\ calls d = [CExpectVisible BADGE 10000; CTextContent BADGE].
Proof.
  intros Hne He Ht actual. unfold assert_cart_count.
  rewrite (proj2 (Z.eqb_neq expected 0) Hne).
  erewrite bind_returns by apply cart_badge_run.
  erewrite bind_returns.
  2:{ rewrite expect_visible_run. cbn [target_locator page journal].
      rewrite He. reflexivity. }
  erewrite bind_returns by apply cart_badge_run.
  erewrite bind_returns.
  2:{ rewrite get_text_run. cbn [target_locator page journal].
      rewrite Ht. reflexivity. }
  rewrite assert_run. cbn [page journal]. fold actual.
  eexists. rewrite <- !app_assoc. split; reflexivity.
Qed.

(** C4.  [assert_cart_count 0] succeeds when the badge is not visible and
    when it is visible reading 0.  For an expected count above zero the
    method first waits for the badge (a failed wait is raised as it is);
    once the badge is visible it reads the text and raises the assertion
    error naming the expected and the actual value exactly when the
    trimmed text is not the decimal form of the expected count. *)
Theorem assert_cart_count_spec :
  forall r,
    (loc_is_visible BADGE (page r) = inr false ->
     fst (assert_cart_count 0 r) = Return tt)
    /\ (loc_is_visible BADGE (page r) = inr true ->
        loc_text_content BADGE (page r) = inr (Some "0") ->
        fst (assert_cart_count 0 r) = Return tt)
    /\ (forall expected, 0 < expected ->
        (forall e, expect_to_be_visible BADGE 10000 (page r) = inl e ->
           fst (assert_cart_count expected r) = Raise e)
        /\ (forall w1 content,
              expect_to_be_visible BADGE 10000 (page r) = inr w1 ->
              loc_text_content BADGE w1 = inr content ->
              let actual := PyStr.strip (PyStr.or_default content EmptyString) in
              let result := assert_cart_count expected r in
              (actual = PyStr.of_int expected -> fst result = Return tt)
              /\ (actual <> PyStr.of_int expected ->
                  fst result
                  = Raise (AssertionError
                             ("Cart badge expected " +:+ PyStr.of_int expected
                              +:+ " got " +:+ actual)))
              /\ page (snd result) = w1
              /\ exists d, journal (snd result) = journal r ++ d
                           /\ calls d = [CExpectVisible BADGE 10000;
                                         CTextContent BADGE])).
Proof.
  intros r. split; [|split].
  - intros Hv. destruct (assert_cart_count_zero_absent r Hv) as (d & -> & _).
    reflexivity.
  - intros Hv Ht.
    rewrite (assert_cart_count_zero_visible r (Some "0") 0 Hv Ht eq_refl).
    reflexivity.
  - intros expected Hpos. split.
    + intros e He.
      destruct (assert_cart_count_wait_fails expected r e ltac:(lia) He) as (d & -> & _).
      reflexivity.
    + intros w1 content He Ht actual result.
      destruct (assert_cart_count_compares expected r w1 content ltac:(lia) He Ht)
        as (d & E & Hd).
      fold actual in E. subst result. rewrite E. cbn [fst snd page journal].
      split; [|split; [|split]].
      * intros ->. rewrite String.eqb_refl. reflexivity.
      * intros Hne. apply String.eqb_neq in Hne. rewrite Hne. reflexivity.
      * reflexivity.
      * exists d. split; [reflexivity | exact Hd].
Qed.

Lemma clicks_convert :
  click_converts ->
  forall k w w',
    clicks k w = inr w' ->
    loc_count REMOVE w' = (loc_count REMOVE w + k)%nat
    /\ loc_count ITEMS w' = loc_count ITEMS w.
Proof.
  intros Hlaw. induction k as [|k IH]; intros w w'; cbn [clicks].
  - intros [= <-]. split; [lia | reflexivity].
  - destruct (loc_click (First ADD) false w) as [e|w1] eqn:E; [discriminate|].
    intros Hk. destruct (Hlaw w w1 E) as [Hr Hi].
    destruct (IH w1 w' Hk) as [Hr' Hi']. split; [lia | congruence].
Qed.

(** C5.  On the six-product inventory page with all six add buttons
    present, [add_all_items_to_cart] and [add_items_to_cart 6] have the
    same effect: both return 6 and both leave the same page, whose cart
    badge reads 6 (so [assert_cart_count 6] passes on it). *)
Theorem add_all_same_as_add_six :
  click_removes_one -> click_converts -> one_button_each -> badge_shows_cart ->
  forall fuel r,
    loc_count ITEMS (page r) = 6%nat ->
    loc_count ADD (page r) = 6%nat ->
    (6 < fuel)%nat ->
    exists w' j1 j2,
      add_all_items_to_cart fuel r = (Return 6, mkRun w' j1)
      /\ add_items_to_cart 6 r = (Return 6, mkRun w' j2)
      /\ loc_text_content BADGE w' = inr (Some "6")
      /\ (forall j, fst (assert_cart_count 6 (mkRun w' j)) = Return tt).
Proof.
  intros Hone Hconv Heach Hbadge fuel r Hitems Hadd Hfuel.
  destruct (while_loop_clicks Hone 6%nat fuel 0 r Hadd Hfuel) as (w' & d1 & Hall & Hk & _).
  pose proof (Heach (page r)) as Hsum. rewrite Hitems, Hadd in Hsum.
  destruct (clicks_convert Hconv 6%nat (page r) w' Hk) as [Hrem _].
  assert (Hrem' : loc_count REMOVE w' = 6%nat) by lia.
  destruct (Hbadge w') as [Hvis Htext]; [lia|]. rewrite Hrem' in Htext.
  assert (Hsix : exists j2, add_items_to_cart 6 r = (Return 6, mkRun w' j2)).
  { rewrite add_items_to_cart_run, Hadd.
    change (Z.to_nat (Z.min 6 (Z.of_nat 6))) with 6%nat.
    match goal with
    | |- context [for_loop 6 0 _ 0 ?r1] =>
        destruct (for_loop_clicks 6%nat 0 0 r1 w' Hk) as (d2 & -> & _)
    end.
    eexists. reflexivity. }
  destruct Hsix as (j2 & Hsix).
  exists w'. eexists. exists j2. split; [|split; [|split]].
  - rewrite add_all_items_to_cart_run, Hall. reflexivity.
  - exact Hsix.
  - exact Htext.
  - intros j.
    destruct (assert_cart_count_compares 6 (mkRun w' j) w' (Some "6")
                ltac:(lia) (Hvis 10000) Htext) as (d & -> & _).
    reflexivity.
Qed.

End Badge.

(** The four cases on the inventory model: empty cart without a badge,
    empty cart with a badge reading 0, one item expected and shown, two
    expected with one shown. *)
Lemma assert_cart_count_spec_witness :
  fst (InventoryPage.assert_cart_count 0
         (Playwright.mkRun SauceDemo.six_products []))
  = Playwright.Return tt
  /\ fst (InventoryPage.assert_cart_count 0
            (Playwright.mkRun (SauceDemo.mkInventory [false] true) []))
     = Playwright.Return tt
  /\ fst (InventoryPage.assert_cart_count 1
            (Playwright.mkRun (SauceDemo.mkInventory [true; false] false) []))
     = Playwright.Return tt
  /\ fst (InventoryPage.assert_cart_count 2
            (Playwright.mkRun (SauceDemo.mkInventory [true; false] false) []))
     = Playwright.Raise (AssertionError "Cart badge expected 2 got 1").
Proof.
  split; [|split; [|split]].
  - apply (proj1 (assert_cart_count_spec
                    (Playwright.mkRun SauceDemo.six_products []))).
    reflexivity.
  - apply (proj1 (proj2 (assert_cart_count_spec
                           (Playwright.mkRun (SauceDemo.mkInventory [false] true) []))));
      reflexivity.
  - destruct (proj2 (proj2 (assert_cart_count_spec
                (Playwright.mkRun (SauceDemo.mkInventory [true; false] false) [])))
                1 eq_refl) as [_ Hc].
    destruct (Hc (SauceDemo.mkInventory [true; false] false) (Some "1")
                eq_refl eq_refl) as (Heq & _).
    apply Heq. reflexivity.
  - destruct (proj2 (proj2 (assert_cart_count_spec
                (Playwright.mkRun (SauceDemo.mkInventory [true; false] false) [])))
                2 eq_refl) as [_ Hc].
    destruct (Hc (SauceDemo.mkInventory [true; false] false) (Some "1")
                eq_refl eq_refl) as (_ & Hne & _).
    apply Hne. discriminate.
Defined.

(** The two calls on the six-product inventory model. *)
Lemma add_all_same_as_add_six_witness :
  exists w' j1 j2,
    InventoryPage.add_all_items_to_cart 7 (Playwright.mkRun SauceDemo.six_products [])
    = (Playwright.Return 6, Playwright.mkRun w' j1)
    /\ InventoryPage.add_items_to_cart 6 (Playwright.mkRun SauceDemo.six_products [])
       = (Playwright.Return 6, Playwright.mkRun w' j2)
    /\ Playwright.loc_text_content Shop.BADGE w' = inr (Some "6")
    /\ (forall j, fst (InventoryPage.assert_cart_count 6 (Playwright.mkRun w' j))
                  = Playwright.Return tt).
Proof.
  apply (add_all_same_as_add_six
           inventory_click_removes_one inventory_click_converts
           inventory_one_button_each inventory_badge_shows_cart
           7%nat (Playwright.mkRun SauceDemo.six_products []));
    [reflexivity | reflexivity | vm_compute; lia].
Defined.

(** ** Filling fields and logging in *)

Section Forms.
Import Playwright BasePage Journal Shop.
Context {W : Type} `{Browser W}.

Lemma fill_run self target text (r : Run W) :
  let loc := target_locator target in
  let j := journal r ++ fill_log self target text true in
  fill self target text true r =
  match loc_fill loc EmptyString (page r) with
  | inl e => (Raise e, mkRun (page r) (j ++ [Did (CFill loc EmptyString)]))
  | inr w1 =>
      match loc_fill loc text w1 with
      | inl e =>
          (Raise e, mkRun w1 (j ++ [Did (CFill loc EmptyString); Did (CFill loc text)]))
      | inr w2 =>
          (Return tt, mkRun w2 (j ++ [Did (CFill loc EmptyString); Did (CFill loc text)]))
      end
  end.
Proof.
  intros loc j. unfold fill.
  erewrite bind_returns by apply ensure_locator_run.
  erewrite bind_returns by apply log_run.
  cbn [page journal]. fold loc.
  replace ((journal r ++ target_entries self target) ++ _) with j
    by (unfold j, fill_log; rewrite <- app_assoc; reflexivity).
  unfold mbind at 1, M_bind, bind at 1, action at 1. cbn [page journal].
  destruct (loc_fill loc EmptyString (page r)) as [e|w1]; [reflexivity|].
  unfold action. cbn [page journal].
  destruct (loc_fill loc text w1) as [e|w2]; rewrite <- app_assoc; reflexivity.
Qed.

Lemma calls_fill_log self target text clear :
  calls (fill_log (W := W) self target text clear) = [].
Proof. destruct target; reflexivity. Qed.

(** C8.  [fill] with [clear=True] makes exactly two browser calls, both
    writes to the same field and in this order: the empty string, then
    the text.  They are separate actions: when the first has gone through
    and the second does not, the call ends with the page as the clearing
    write left it, the field holding the empty string. *)
Theorem fill_clear_then_write :
  fill_sets_value ->
  forall self target text r w1,
    let loc := target_locator target in
    loc_fill loc EmptyString (page r) = inr w1 ->
    loc_input_value loc w1 = Some EmptyString
    /\ (forall w2, loc_fill loc text w1 = inr w2 ->
        exists d,
          fill self target text true r = (Return tt, mkRun w2 (journal r ++ d))
          /\ calls d = [CFill loc EmptyString; CFill loc text]
          /\ loc_input_value loc w2 = Some text)
    /\ (forall e, loc_fill loc text w1 = inl e ->
        exists d,
          fill self target text true r = (Raise e, mkRun w1 (journal r ++ d))
          /\ calls d = [CFill loc EmptyString; CFill loc text]).
Proof.
  intros Hlaw self target text r w1 loc Hclear.
  split; [exact (Hlaw _ _ _ _ Hclear)|]. split.
  - intros w2 Hwrite. rewrite fill_run. fold loc. rewrite Hclear, Hwrite.
    eexists. rewrite <- app_assoc. split; [reflexivity|]. split.
    + rewrite calls_app, calls_fill_log. reflexivity.
    + exact (Hlaw _ _ _ _ Hwrite).
  - intros e Hwrite. rewrite fill_run. fold loc. rewrite Hclear, Hwrite.
    eexists. rewrite <- app_assoc. split; [reflexivity|].
    rewrite calls_app, calls_fill_log. reflexivity.
Qed.

Lemma or_default_falsy d : PyStr.or_default (Some EmptyString) d = d.
Proof. reflexivity. Qed.

Lemma or_default_given s d : s <> EmptyString -> PyStr.or_default (Some s) d = s.
Proof. destruct s; [congruence | reflexivity]. Qed.

Lemma or_default_nonempty x d : d <> EmptyString -> PyStr.or_default x d <> EmptyString.
Proof. destruct x as [[|c s]|]; cbn; congruence. Qed.

(** C10 (as the code has it).  When [login] goes through, what it writes
    into each field (after clearing it) and submits is the argument if
    that is a non-empty string, and the configured default otherwise,
    for [None] and for the empty string alike.  Hence an empty username
    (password) is never submitted when the configured one is non-empty. *)
Theorem login_falls_back :
  forall credentials username password r r',
    LoginPage.login credentials username password r = (Return tt, r') ->
    let u := PyStr.or_default username (Settings.username credentials) in
    let p := PyStr.or_default password (Settings.password credentials) in
    (exists d,
       journal r' = journal r ++ d
       /\ calls d = [CFill (Css "#user-name") EmptyString; CFill (Css "#user-name") u;
                     CFill (Css "#password") EmptyString; CFill (Css "#password") p;
                     CClick (Css "#login-button") false])
    /\ (username = None \/ username = Some EmptyString ->
        u = Settings.username credentials)
    /\ (password = None \/ password = Some EmptyString ->
        p = Settings.password credentials)
    /\ (forall s, username = Some s -> s <> EmptyString -> u = s)
    /\ (forall s, password = Some s -> s <> EmptyString -> p = s)
    /\ (Settings.username credentials <> EmptyString -> u <> EmptyString)
    /\ (Settings.password credentials <> EmptyString -> p <> EmptyString).
Proof.
  intros credentials username password r r' Hrun u p.
  split.
  - revert Hrun. unfold LoginPage.login. fold u p.
    unfold LoginPage.username_input, LoginPage.password_input, LoginPage.login_button.
    erewrite bind_returns by apply locator_run.
    rewrite bind_run, fill_run.
    cbn [target_locator page journal].
    destruct (loc_fill (Css "#user-name") EmptyString (page r)) as [e|w1];
      [discriminate|].
    destruct (loc_fill (Css "#user-name") u w1) as [e|w2]; [discriminate|].
    erewrite bind_returns by apply locator_run.
    rewrite bind_run, fill_run.
    cbn [target_locator page journal].
    destruct (loc_fill (Css "#password") EmptyString w2) as [e|w3]; [discriminate|].
    destruct (loc_fill (Css "#password") p w3) as [e|w4]; [discriminate|].
    erewrite bind_returns by apply locator_run.
    rewrite click_run. cbn [target_locator page journal].
    destruct (loc_click (Css "#login-button") false w4) as [e|w5]; [discriminate|].
    intros [= <-]. cbn [journal]. eexists. rewrite <- !app_assoc.
    split; [reflexivity|]. reflexivity.
  - repeat split.
    + intros [-> | ->]; reflexivity.
    + intros [-> | ->]; reflexivity.
    + intros s -> Hs. apply or_default_given, Hs.
    + intros s -> Hs. apply or_default_given, Hs.
    + apply or_default_nonempty.
    + apply or_default_nonempty.
Qed.

End Forms.

(** ** The login form model, and the browser that breaks down *)

Section FormModel.
Import Playwright SauceDemo Shop.

Lemma form_fill_sets_value : fill_sets_value (W := LoginForm).
Proof.
  intros l text w w'.
  change (loc_fill l text w) with (form_fill l text w).
  change (loc_input_value l w') with (form_value l w').
  unfold form_fill, form_value.
  destruct (String.eqb (root_selector l) "#user-name"); [intros [= <-]; reflexivity|].
  destruct (String.eqb (root_selector l) "#password"); [intros [= <-]; reflexivity|].
  discriminate.
Qed.

Lemma flaky_fill_sets_value {W : Type} `{Browser W} :
  fill_sets_value (W := W) -> fill_sets_value (W := Flaky W).
Proof.
  intros Hlaw l text w w'.
  change (loc_fill l text w) with (flaky_act (loc_fill l text) w).
  change (loc_input_value l w') with (loc_input_value l (inner w')).
  unfold flaky_act. destruct (budget w) as [|b]; [discriminate|].
  destruct (loc_fill l text (inner w)) as [e|w1] eqn:E; [discriminate|].
  intros [= <-]. cbn [inner]. exact (Hlaw _ _ _ _ E).
Qed.

End FormModel.

(** Filling the user name in a browser that breaks down after one action
    (the field stays cleared) and after two (the field holds the text). *)
Lemma fill_clear_then_write_witness :
  (exists j,
     BasePage.fill LoginPage.self (BasePage.TSel "#user-name") "bob" true
       (Playwright.mkRun
          (SauceDemo.mkFlaky 1 (SauceDemo.mkLoginForm "alice" "pw" [])) [])
     = (Playwright.Raise (TimeoutError "browser has been closed"),
        Playwright.mkRun
          (SauceDemo.mkFlaky 0 (SauceDemo.mkLoginForm EmptyString "pw" [])) j))
  /\ (exists j,
        BasePage.fill LoginPage.self (BasePage.TSel "#user-name") "bob" true
          (Playwright.mkRun
             (SauceDemo.mkFlaky 2 (SauceDemo.mkLoginForm "alice" "pw" [])) [])
        = (Playwright.Return tt,
           Playwright.mkRun
             (SauceDemo.mkFlaky 0 (SauceDemo.mkLoginForm "bob" "pw" [])) j)).
Proof.
  split.
  - destruct (fill_clear_then_write (flaky_fill_sets_value form_fill_sets_value)
                LoginPage.self (BasePage.TSel "#user-name") "bob"
                (Playwright.mkRun
                   (SauceDemo.mkFlaky 1 (SauceDemo.mkLoginForm "alice" "pw" [])) [])
                (SauceDemo.mkFlaky 0 (SauceDemo.mkLoginForm EmptyString "pw" []))
                eq_refl) as (_ & _ & Hcrash).
    destruct (Hcrash (TimeoutError "browser has been closed") eq_refl) as (d & E & _).
    exists d. exact E.
  - destruct (fill_clear_then_write (flaky_fill_sets_value form_fill_sets_value)
                LoginPage.self (BasePage.TSel "#user-name") "bob"
                (Playwright.mkRun
                   (SauceDemo.mkFlaky 2 (SauceDemo.mkLoginForm "alice" "pw" [])) [])
                (SauceDemo.mkFlaky 1 (SauceDemo.mkLoginForm EmptyString "pw" []))
                eq_refl) as (_ & Hok & _).
    destruct (Hok (SauceDemo.mkFlaky 0 (SauceDemo.mkLoginForm "bob" "pw" [])) eq_refl)
      as (d & E & _).
    exists d. exact E.
Defined.

(** C10 fails as stated when the configured default is itself empty:
    with SAUCE_USERNAME set to the empty string, [login] called with an
    empty username goes through and submits the empty username. *)
Lemma login_empty_default_counterexample :
  fst (LoginPage.login
         (Settings.credentials_of ({["SAUCE_USERNAME" := EmptyString]} : gmap string string))
         (Some EmptyString) None
         (Playwright.mkRun (SauceDemo.mkLoginForm "x" "y" []) []))
  = Playwright.Return tt
  /\ SauceDemo.submitted
       (Playwright.page
          (snd (LoginPage.login
                  (Settings.credentials_of
                     ({["SAUCE_USERNAME" := EmptyString]} : gmap string string))
                  (Some EmptyString) None
                  (Playwright.mkRun (SauceDemo.mkLoginForm "x" "y" []) []))))
     = [(EmptyString, "secret_sauce")].
Proof. split; vm_compute; reflexivity. Qed.

(** With the built-in defaults, an empty username and an omitted
    password submit the default credentials. *)
Lemma login_falls_back_witness :
  exists d,
    Playwright.journal
      (snd (LoginPage.login (Settings.credentials_of ∅) (Some EmptyString) None
              (Playwright.mkRun (SauceDemo.mkLoginForm "x" "y" []) [])))
    = [] ++ d
    /\ Playwright.calls d
       = [Playwright.CFill (Playwright.Css "#user-name") EmptyString;
          Playwright.CFill (Playwright.Css "#user-name") "standard_user";
          Playwright.CFill (Playwright.Css "#password") EmptyString;
          Playwright.CFill (Playwright.Css "#password") "secret_sauce";
          Playwright.CClick (Playwright.Css "#login-button") false].
Proof.
  exact (proj1 (login_falls_back (Settings.credentials_of ∅) (Some EmptyString) None
                  (Playwright.mkRun (SauceDemo.mkLoginForm "x" "y" []) [])
                  _ (surjective_pairing _))).
Defined.

(** ** The logger provider *)

Section LoggerFacts.
Import Logger.

Lemma the_logger_set_same key o p : the_logger (set_logger key o p) key = o.
Proof. unfold the_logger, set_logger. cbn [manager]. rewrite lookup_insert_eq. reflexivity. Qed.

Lemma the_logger_set_other key key' o p :
  key <> key' -> the_logger (set_logger key o p) key' = the_logger p key'.
Proof.
  intros Hne. unfold the_logger at 1, set_logger. cbn [manager].
  rewrite lookup_insert_ne by exact Hne. reflexivity.
Qed.

Lemma handlers_of_set_logger key key' o p :
  handlers_of (set_logger key o p) key'
  = if decide (key = key') then handlers o else handlers_of p key'.
Proof.
  unfold handlers_of. destruct (decide (key = key')) as [<-|Hne].
  - rewrite the_logger_set_same. reflexivity.
  - rewrite the_logger_set_other by exact Hne. reflexivity.
Qed.

Lemma handlers_of_add_handler key key' h p :
  handlers_of (add_handler key h p) key'
  = if decide (key = key') then handlers_of p key ++ [h] else handlers_of p key'.
Proof. unfold add_handler. rewrite handlers_of_set_logger. reflexivity. Qed.

(** A logger that [setup_logger] returns is in the cache afterwards. *)
Lemma setup_logger_caches cfg amb name p logger p1 :
  setup_logger cfg amb name p = (inr logger, p1) ->
  _loggers p1 !! name = Some logger.
Proof.
  unfold setup_logger. destruct (_loggers p !! name) as [l|] eqn:E.
  - intros [= <- <-]. exact E.
  - destruct (valid_level (LOG_LEVEL cfg)); cbn [negb]; [|discriminate].
    destruct (handlers _) as [|h hs].
    + destruct (file_opens amb); [|discriminate].
      intros [= <- <-]. cbn [_loggers]. apply lookup_insert_eq.
    + intros [= <- <-]. cbn [_loggers]. apply lookup_insert_eq.
Qed.

Lemma attached_once_trans cfg a b c :
  attached_once cfg a b -> attached_once cfg b c -> attached_once cfg a c.
Proof.
  intros [-> | (-> & Hb)] Hbc; [exact Hbc|].
  destruct Hbc as [-> | (Hnil & _)]; [right; auto|].
  destruct Hb as [-> | (ts & ->)]; discriminate.
Qed.

Lemma setup_logger_step cfg amb name p key :
  attached_once cfg (handlers_of p key)
    (handlers_of (snd (setup_logger cfg amb name p)) key).
Proof.
  unfold setup_logger. destruct (_loggers p !! name) as [l|]; [left; reflexivity|].
  set (logger := logger_key name).
  set (pa := set_logger logger (the_logger p logger) p).
  assert (Ha : forall k, handlers_of pa k = handlers_of p k).
  { intros k. unfold pa. rewrite handlers_of_set_logger.
    destruct (decide (logger = k)) as [<-|]; reflexivity. }
  destruct (valid_level (LOG_LEVEL cfg)); cbn [negb snd]; [|left; apply Ha].
  set (pb := set_logger logger _ pa).
  assert (Hb : forall k, handlers_of pb k = handlers_of p k).
  { intros k. unfold pb. rewrite handlers_of_set_logger. cbn [handlers].
    destruct (decide (logger = k)) as [<-|]; [apply Ha | apply Ha]. }
  assert (Hfinish : forall q k o,
            handlers o = handlers_of q logger ->
            handlers_of
              {| manager := manager (set_logger logger o q);
                 _loggers := <[name := logger]> (_loggers (set_logger logger o q)) |} k
            = handlers_of q k).
  { intros q k o Ho.
    change (handlers_of {| manager := manager ?x; _loggers := _ |} k)
      with (handlers_of x k).
    rewrite handlers_of_set_logger.
    destruct (decide (logger = k)) as [<-|]; [exact Ho | reflexivity]. }
  destruct (handlers (the_logger pb logger)) as [|h hs] eqn:Eh.
  - destruct (file_opens amb); cbn [snd].
    + rewrite Hfinish by reflexivity. rewrite !handlers_of_add_handler.
      destruct (decide (logger = key)) as [Heq|Hne]; [|left; apply Hb].
      rewrite decide_True by reflexivity. subst key.
      fold (handlers_of pb logger) in Eh. rewrite Eh. right.
      rewrite <- Hb. split; [exact Eh|]. right. eexists. reflexivity.
    + rewrite handlers_of_add_handler.
      destruct (decide (logger = key)) as [<-|]; [|left; apply Hb].
      fold (handlers_of pb logger) in Eh. rewrite Eh. right.
      rewrite <- Hb. split; [exact Eh|]. left. reflexivity.
  - cbn [snd]. rewrite Hfinish by (symmetry; exact Eh). left. apply Hb.
Qed.

Lemma run_calls_attached cfg cs : forall p key,
  attached_once cfg (handlers_of p key) (handlers_of (run_calls cfg cs p) key).
Proof.
  induction cs as [|[amb name] rest IH]; intros p key; cbn [run_calls].
  - left. reflexivity.
  - eapply attached_once_trans; [apply setup_logger_step | apply IH].
Qed.

End LoggerFacts.

(** C9.  [setup_logger] is idempotent per name: once a call has returned
    a logger, every later call with that name returns the same logger
    and leaves the whole process state, handlers included, as it was.
    Over any sequence of calls the handler list of every logger is either
    untouched or went from empty to the console handler followed by the
    per-run file handler; so a logger that started without handlers ends
    with at most one console and at most one file handler. *)
Theorem setup_logger_idempotent :
  (forall cfg amb1 amb2 name p logger p1,
     Logger.setup_logger cfg amb1 name p = (inr logger, p1) ->
     Logger.setup_logger cfg amb2 name p1 = (inr logger, p1))
  /\ (forall cfg cs p key,
        Logger.attached_once cfg (Logger.handlers_of p key)
          (Logger.handlers_of (Logger.run_calls cfg cs p) key))
  /\ (forall cfg cs p key,
        Logger.handlers_of p key = [] ->
        (length (List.filter Logger.is_console
                   (Logger.handlers_of (Logger.run_calls cfg cs p) key)) <= 1)%nat
        /\ (length (List.filter Logger.is_file
                      (Logger.handlers_of (Logger.run_calls cfg cs p) key)) <= 1)%nat).
Proof.
  split; [|split].
  - intros cfg amb1 amb2 name p logger p1 Hfirst.
    apply setup_logger_caches in Hfirst.
    unfold Logger.setup_logger. rewrite Hfirst. reflexivity.
  - intros cfg cs p key. apply run_calls_attached.
  - intros cfg cs p key Hnil.
    destruct (run_calls_attached cfg cs p key) as [-> | (_ & [-> | (ts & ->)])].
    + rewrite Hnil. cbn. lia.
    + cbn. lia.
    + cbn. lia.
Qed.

(** Two calls for the same name in a fresh process, five seconds apart. *)
Lemma setup_logger_idempotent_witness :
  exists p1,
    Logger.setup_logger (Logger.mkConfig "INFO" "logs")
      (Logger.mkAmbient "20240101_120000" true) "UI_Tests" (Logger.mkProcess ∅ ∅)
    = (inr "UI_Tests", p1)
    /\ Logger.setup_logger (Logger.mkConfig "INFO" "logs")
         (Logger.mkAmbient "20240101_120005" true) "UI_Tests" p1
       = (inr "UI_Tests", p1)
    /\ Logger.handlers_of p1 "UI_Tests"
       = [Logger.StreamHandler "INFO" Logger.FMT Logger.DATEFMT;
          Logger.FileHandler "logs/test_run_20240101_120000.log" "INFO"
            Logger.FMT Logger.DATEFMT].
Proof.
  eexists. split; [reflexivity|]. split.
  - apply (proj1 setup_logger_idempotent _ (Logger.mkAmbient "20240101_120000" true)
             _ _ (Logger.mkProcess ∅ ∅)).
    reflexivity.
  - vm_compute. reflexivity.
Defined.

(** * Further properties of the code *)

(** ** Settings read from the environment *)

Section EnvironmentFacts.
Import PyStr Settings Environment.

Lemma is_space_lower_char c : is_space (lower_char c) = is_space c.
Proof. destruct c as [[] [] [] [] [] [] [] []]; reflexivity. Qed.

Lemma truthy_lower s : truthy (lower s) = truthy s.
Proof. destruct s; reflexivity. Qed.

Lemma lstrip_lower s : lstrip (lower s) = lower (lstrip s).
Proof.
  induction s as [|c r IH]; [reflexivity|].
  cbn [lower lstrip]. rewrite is_space_lower_char.
  destruct (is_space c); [exact IH | reflexivity].
Qed.

Lemma rstrip_lower s : rstrip (lower s) = lower (rstrip s).
Proof.
  induction s as [|c r IH]; [reflexivity|].
  cbn [lower rstrip]. rewrite is_space_lower_char, IH, truthy_lower.
  destruct (is_space c && negb (truthy (rstrip r))); reflexivity.
Qed.

Lemma strip_lower s : lower (strip s) = strip (lower s).
Proof. unfold strip. rewrite lstrip_lower, rstrip_lower. reflexivity. Qed.

(** X1.  White space around the value of a boolean variable does not
    matter: padding the value on either side gives the same
    [_env_bool]. *)
Theorem env_bool_ignores_padding :
  forall env name raw pre post default,
    blank pre = true -> blank post = true ->
    _env_bool (<[name := pre +:+ raw +:+ post]> env) name default
    = _env_bool (<[name := raw]> env) name default.
Proof.
  intros env name raw pre post default Hpre Hpost.
  unfold _env_bool. rewrite !lookup_insert_eq.
  rewrite (strip_padding pre raw post Hpre Hpost). reflexivity.
Qed.

Lemma env_bool_ignores_padding_witness :
  _env_bool ({["HEADLESS" := "  Off" +:+ String (Ascii.ascii_of_nat 10) EmptyString]}
               : gmap string string) "HEADLESS" true
  = false.
Proof.
  change ({["HEADLESS" := "  Off" +:+ String (Ascii.ascii_of_nat 10) EmptyString]}
            : gmap string string)
    with (<["HEADLESS" := "  " +:+ "Off" +:+ String (Ascii.ascii_of_nat 10) EmptyString]>
            (∅ : gmap string string)).
  rewrite (env_bool_ignores_padding ∅ "HEADLESS" "Off" "  "
             (String (Ascii.ascii_of_nat 10) EmptyString) true eq_refl eq_refl).
  vm_compute. reflexivity.
Defined.

(** X2.  Letter case does not matter either: two values with the same
    lower-case form give the same [_env_bool]. *)
Theorem env_bool_ignores_case :
  forall env name raw raw' default,
    lower raw = lower raw' ->
    _env_bool (<[name := raw]> env) name default
    = _env_bool (<[name := raw']> env) name default.
Proof.
  intros env name raw raw' default Hlow.
  unfold _env_bool. rewrite !lookup_insert_eq.
  rewrite !strip_lower, Hlow. reflexivity.
Qed.

Lemma env_bool_ignores_case_witness :
  _env_bool ({["HEADLESS" := "FALSE"]} : gmap string string) "HEADLESS" true = false.
Proof.
  change ({["HEADLESS" := "FALSE"]} : gmap string string)
    with (<["HEADLESS" := "FALSE"]> (∅ : gmap string string)).
  rewrite (env_bool_ignores_case ∅ "HEADLESS" "FALSE" "false" true eq_refl).
  vm_compute. reflexivity.
Defined.

Lemma getenv_insert_ne env k v name default :
  k <> name -> getenv (<[k := v]> env) name default = getenv env name default.
Proof. intros Hne. unfold getenv. rewrite lookup_insert_ne by exact Hne. reflexivity. Qed.

(** What the import amounts to, in terms of the three numeric texts. *)
Lemma import_settings_cases env :
  match to_int (getenv env "UI_TIMEOUT" "10000"),
        to_int (getenv env "SLOWMO" "0"),
        to_int (getenv env "API_TIMEOUT" "10000") with
  | Some t, Some s, Some a =>
      exists m,
        import_settings env = inr m
        /\ timeout (ui_settings m) = t
        /\ slowmo (ui_settings m) = s
        /\ api_timeout (api_settings m) = a
        /\ headless (ui_settings m) = _env_bool env "HEADLESS" true
        /\ expected_airports_csv (airports m)
           = getenv env "AIRPORTS_EXPECTED"
               "Akureyri Airport,St. Anthony Airport,CFB Bagotville"
  | _, _, _ => exists msg, import_settings env = inl (ValueError msg)
  end.
Proof.
  unfold import_settings, ui_settings_of, int_of.
  destruct (to_int (getenv env "UI_TIMEOUT" "10000")) as [t|]; [|eauto].
  destruct (to_int (getenv env "SLOWMO" "0")) as [s|]; [|eauto].
  destruct (to_int (getenv env "API_TIMEOUT" "10000")) as [a|]; [|eauto].
  eexists. split; [reflexivity|]. repeat split.
Qed.

Lemma import_settings_succeed env :
  (exists m, import_settings env = inr m)
  <-> (to_int (getenv env "UI_TIMEOUT" "10000") <> None
       /\ to_int (getenv env "SLOWMO" "0") <> None
       /\ to_int (getenv env "API_TIMEOUT" "10000") <> None).
Proof.
  pose proof (import_settings_cases env) as Hc.
  destruct (to_int (getenv env "UI_TIMEOUT" "10000")) as [t|];
    [destruct (to_int (getenv env "SLOWMO" "0")) as [s|];
     [destruct (to_int (getenv env "API_TIMEOUT" "10000")) as [a|]|]|].
  - destruct Hc as (m & Hm & _). split; [|eauto].
    intros _. repeat split; discriminate.
  - destruct Hc as (msg & Hm). split.
    + intros [m' Hm']. congruence.
    + intros (_ & _ & Ha). congruence.
  - destruct Hc as (msg & Hm). split.
    + intros [m' Hm']. congruence.
    + intros (_ & Hs & _). congruence.
  - destruct Hc as (msg & Hm). split.
    + intros [m' Hm']. congruence.
    + intros (Ht & _). congruence.
Qed.

(** X3.  Importing the settings module fails exactly when UI_TIMEOUT,
    SLOWMO or API_TIMEOUT (or its default) is not the text of an integer,
    and then with a ValueError; no other variable, HEADLESS and BASE_URL
    included, can make it fail.  The numbers are taken as they are,
    without any range check. *)
Theorem ui_settings_fail_only_on_numbers :
  (forall env,
     (exists m, import_settings env = inr m)
     <-> (to_int (getenv env "UI_TIMEOUT" "10000") <> None
          /\ to_int (getenv env "SLOWMO" "0") <> None
          /\ to_int (getenv env "API_TIMEOUT" "10000") <> None))
  /\ (forall env e, import_settings env = inl e -> exists msg, e = ValueError msg)
  /\ (forall env k v,
        k <> "UI_TIMEOUT" -> k <> "SLOWMO" -> k <> "API_TIMEOUT" ->
        (exists m, import_settings (<[k := v]> env) = inr m)
        <-> (exists m, import_settings env = inr m))
  /\ (forall env m,
        import_settings env = inr m ->
        to_int (getenv env "UI_TIMEOUT" "10000") = Some (timeout (ui_settings m))
        /\ to_int (getenv env "SLOWMO" "0") = Some (slowmo (ui_settings m))
        /\ to_int (getenv env "API_TIMEOUT" "10000")
           = Some (api_timeout (api_settings m))
        /\ headless (ui_settings m) = _env_bool env "HEADLESS" true).
Proof.
  split; [exact import_settings_succeed|]. split; [|split].
  - intros env e He. pose proof (import_settings_cases env) as Hc.
    destruct (to_int (getenv env "UI_TIMEOUT" "10000"));
      [destruct (to_int (getenv env "SLOWMO" "0"));
       [destruct (to_int (getenv env "API_TIMEOUT" "10000"))|]|].
    + destruct Hc as (m & Hm & _). congruence.
    + destruct Hc as (msg & Hm). exists msg. congruence.
    + destruct Hc as (msg & Hm). exists msg. congruence.
    + destruct Hc as (msg & Hm). exists msg. congruence.
  - intros env k v Ht Hs Ha. rewrite !import_settings_succeed.
    rewrite !getenv_insert_ne by assumption. reflexivity.
  - intros env m Hm. pose proof (import_settings_cases env) as Hc.
    destruct (to_int (getenv env "UI_TIMEOUT" "10000"));
      [destruct (to_int (getenv env "SLOWMO" "0"));
       [destruct (to_int (getenv env "API_TIMEOUT" "10000"))|]|].
    + destruct Hc as (m' & Hm' & Ht & Hs & Ha & Hh & _).
      assert (m' = m) by congruence. subst m'. repeat split; congruence.
    + destruct Hc as (msg & Hc). congruence.
    + destruct Hc as (msg & Hc). congruence.
    + destruct Hc as (msg & Hc). congruence.
Qed.

(** A negative timeout is accepted; a timeout with a unit ends the
    import. *)
Lemma ui_settings_fail_only_on_numbers_witness :
  (exists m, import_settings ({["UI_TIMEOUT" := "-5"]} : gmap string string) = inr m
             /\ timeout (ui_settings m) = -5)
  /\ ~ (exists m, import_settings ({["UI_TIMEOUT" := "10s"]} : gmap string string) = inr m).
Proof.
  split.
  - eexists. split; vm_compute; reflexivity.
  - intros Hs. apply (proj1 (proj1 ui_settings_fail_only_on_numbers _)) in Hs.
    destruct Hs as [Ht _]. apply Ht. vm_compute. reflexivity.
Defined.

(** X4.  Whenever the settings module imports, with AIRPORTS_EXPECTED
    set to the comma-joined text of clean names its [airports] object
    gives exactly those names, in order and with repetitions. *)
Theorem airports_from_environment :
  forall env names m,
    Forall clean_name names ->
    import_settings (<["AIRPORTS_EXPECTED" := join "," names]> env) = inr m ->
    expected_airports (airports m) = names.
Proof.
  intros env names m Hall Hm.
  pose proof (import_settings_cases (<["AIRPORTS_EXPECTED" := join "," names]> env)) as Hc.
  destruct (to_int _) as [t|]; [destruct (to_int _) as [s|];
    [destruct (to_int _) as [a|]|]|]; try (destruct Hc as (msg & Hc); congruence).
  destruct Hc as (m' & Hm' & _ & _ & _ & _ & Hcsv).
  assert (m' = m) by congruence. subst m'.
  unfold getenv in Hcsv. rewrite lookup_insert_eq in Hcsv.
  destruct (airports m) as [csv from to]. cbn [expected_airports_csv] in Hcsv.
  subst csv. apply expected_airports_join, Hall.
Qed.

Lemma airports_from_environment_witness :
  exists m,
    import_settings (<["AIRPORTS_EXPECTED" := join "," ["Narita"; "Kansai"]]>
                       ({["UI_TIMEOUT" := "5000"]} : gmap string string))
    = inr m
    /\ expected_airports (airports m) = ["Narita"; "Kansai"].
Proof.
  destruct (import_settings
              (<["AIRPORTS_EXPECTED" := join "," ["Narita"; "Kansai"]]>
                 ({["UI_TIMEOUT" := "5000"]} : gmap string string)))
    as [e|m] eqn:Eq; [vm_compute in Eq; discriminate|].
  exists m. split; [reflexivity|].
  apply (airports_from_environment
           ({["UI_TIMEOUT" := "5000"]} : gmap string string)
           ["Narita"; "Kansai"] m); [|exact Eq].
  repeat constructor.
Defined.

(** X5.  Parsing normalises: joining the parsed list with commas and
    parsing again gives the same list. *)
Theorem expected_airports_normal_form :
  forall d from to,
    expected_airports
      (mkAirportData (join "," (expected_airports d)) from to)
    = expected_airports d.
Proof.
  intros d from to. apply expected_airports_join.
  apply List.Forall_forall. intros a Ha. exact (expected_airports_clean d a Ha).
Qed.

End EnvironmentFacts.

(** ** The wrapped actions of the base page *)

Section BasePageFacts.
Import Playwright BasePage Journal Shop Effects.
Context {W : Type} `{Browser W}.

Lemma fill_once_run self target text (r : Run W) :
  let loc := target_locator target in
  let j := journal r ++ fill_log self target text false in
  fill self target text false r =
  match loc_fill loc text (page r) with
  | inl e => (Raise e, mkRun (page r) (j ++ [Did (CFill loc text)]))
  | inr w1 => (Return tt, mkRun w1 (j ++ [Did (CFill loc text)]))
  end.
Proof.
  intros loc j. unfold fill.
  erewrite bind_returns by apply ensure_locator_run.
  erewrite bind_returns by apply log_run.
  cbn [page journal]. fold loc.
  replace ((journal r ++ target_entries self target) ++ _) with j
    by (unfold j, fill_log; rewrite <- app_assoc; reflexivity).
  erewrite bind_returns by reflexivity.
  unfold action. cbn [page journal].
  destruct (loc_fill loc text (page r)); reflexivity.
Qed.

Lemma calls_target_entries self target : calls (target_entries self target) = [].
Proof. destruct target; reflexivity. Qed.

Lemma calls_click_entries self target force :
  calls (click_entries_of (W := W) self target force)
  = [CClick (target_locator target) force].
Proof. unfold click_entries_of. rewrite calls_app, calls_target_entries. reflexivity. Qed.

Lemma calls_text_entries self target content :
  calls (text_entries_of (W := W) self target content)
  = [CTextContent (target_locator target)].
Proof. unfold text_entries_of. rewrite calls_app, calls_target_entries. reflexivity. Qed.

Lemma calls_visible_entries self target visible :
  calls (visible_entries_of (W := W) self target visible)
  = [CIsVisible (target_locator target)].
Proof. unfold visible_entries_of. rewrite calls_app, calls_target_entries. reflexivity. Qed.

Lemma calls_expect_entries self target timeout :
  calls (expect_entries_of (W := W) self target timeout)
  = [CExpectVisible (target_locator target) timeout].
Proof. unfold expect_entries_of. rewrite calls_app, calls_target_entries. reflexivity. Qed.

(** What a run of [fill] does, whatever the flag: outcome, page and
    browser calls depend on the target through its locator only. *)
Lemma fill_effect self target text clear (r : Run W) :
  let loc := target_locator target in
  exists o w cs,
    fst (fill self target text clear r) = o
    /\ page (snd (fill self target text clear r)) = w
    /\ calls (journal (snd (fill self target text clear r))) = calls (journal r) ++ cs
    /\ (o, w, cs)
       = (if clear then
            match loc_fill loc EmptyString (page r) with
            | inl e => (Raise e, page r, [CFill loc EmptyString])
            | inr w1 =>
                match loc_fill loc text w1 with
                | inl e => (Raise e, w1, [CFill loc EmptyString; CFill loc text])
                | inr w2 => (Return tt, w2, [CFill loc EmptyString; CFill loc text])
                end
            end
          else
            match loc_fill loc text (page r) with
            | inl e => (Raise e, page r, [CFill loc text])
            | inr w1 => (Return tt, w1, [CFill loc text])
            end).
Proof.
  intros loc. destruct clear.
  - rewrite fill_run. fold loc.
    destruct (loc_fill loc EmptyString (page r)) as [e|w1];
      [|destruct (loc_fill loc text w1) as [e|w2]];
      cbn [fst snd page journal]; eexists _, _, _;
      (split; [reflexivity|]); (split; [reflexivity|]);
      rewrite !calls_app, calls_fill_log, app_nil_r; split; reflexivity.
  - rewrite fill_once_run. fold loc.
    destruct (loc_fill loc text (page r)) as [e|w1];
      cbn [fst snd page journal]; eexists _, _, _;
      (split; [reflexivity|]); (split; [reflexivity|]);
      rewrite !calls_app, calls_fill_log, app_nil_r; split; reflexivity.
Qed.

(** X6.  Every action takes a selector string or a locator: handing it
    the string [s] or the locator that [s] resolves to ends in the same
    outcome, the same page and the same browser calls. *)
Theorem selector_or_locator :
  forall self s force text clear timeout (r : Run W),
    same_effect (click self (TSel s) force r) (click self (TLoc (Css s)) force r)
    /\ same_effect (fill self (TSel s) text clear r) (fill self (TLoc (Css s)) text clear r)
    /\ same_effect (get_text self (TSel s) r) (get_text self (TLoc (Css s)) r)
    /\ same_effect (is_visible self (TSel s) r) (is_visible self (TLoc (Css s)) r)
    /\ same_effect (expect_visible self (TSel s) timeout r)
         (expect_visible self (TLoc (Css s)) timeout r).
Proof.
  intros self s force text clear timeout r. unfold same_effect.
  split; [|split; [|split; [|split]]].
  - rewrite !click_run. cbn [target_locator].
    destruct (loc_click (Css s) force (page r)); cbn [fst snd page journal];
      rewrite !calls_app, !calls_click_entries; repeat split.
  - destruct (fill_effect self (TSel s) text clear r) as (o & w & cs & -> & -> & -> & E).
    destruct (fill_effect self (TLoc (Css s)) text clear r)
      as (o' & w' & cs' & -> & -> & -> & E').
    cbn [target_locator] in E, E'. rewrite <- E' in E. injection E as -> -> ->.
    repeat split.
  - rewrite !get_text_run. cbn [target_locator].
    destruct (loc_text_content (Css s) (page r)); cbn [fst snd page journal];
      rewrite !calls_app, ?calls_text_entries, ?calls_target_entries; repeat split.
  - rewrite !is_visible_run. cbn [target_locator].
    destruct (loc_is_visible (Css s) (page r)); cbn [fst snd page journal];
      rewrite !calls_app, ?calls_visible_entries, ?calls_target_entries; repeat split.
  - rewrite !expect_visible_run. cbn [target_locator].
    destruct (expect_to_be_visible (Css s) timeout (page r)); cbn [fst snd page journal];
      rewrite !calls_app, !calls_expect_entries; repeat split.
Qed.

(** X7.  [get_text] only reads: the page stays as it is and the one
    browser call is the text query.  A text it returns is trimmed; a
    missing content gives the empty string instead of a failure; a failed
    query is raised as it is. *)
Theorem get_text_trimmed :
  forall self target (r : Run W),
    let loc := target_locator target in
    let result := get_text self target r in
    page (snd result) = page r
    /\ calls (journal (snd result)) = calls (journal r) ++ [CTextContent loc]
    /\ (forall text, fst result = Return text -> PyStr.strip text = text)
    /\ (loc_text_content loc (page r) = inr None -> fst result = Return EmptyString)
    /\ (forall e, loc_text_content loc (page r) = inl e -> fst result = Raise e).
Proof.
  intros self target r loc result. subst result. rewrite get_text_run. fold loc.
  destruct (loc_text_content loc (page r)) as [e|content];
    cbn [fst snd page journal]; rewrite !calls_app, ?calls_text_entries,
      ?calls_target_entries; (split; [reflexivity|]); (split; [reflexivity|]).
  - repeat split; [discriminate | discriminate | intros e' [= <-]; reflexivity].
  - split; [intros text [= <-]; apply strip_idem|].
    split; [intros [= ->]; reflexivity | discriminate].
Qed.

(** X8.  Whether or not [fill] clears first, a call that goes through
    leaves the field holding the text; without clearing it makes one
    write, with clearing two. *)
Theorem fill_leaves_text :
  fill_sets_value ->
  forall self target text clear (r r' : Run W),
    fill self target text clear r = (Return tt, r') ->
    let loc := target_locator target in
    loc_input_value loc (page r') = Some text
    /\ calls (journal r')
       = calls (journal r)
         ++ (if clear then [CFill loc EmptyString; CFill loc text]
             else [CFill loc text]).
Proof.
  intros Hlaw self target text clear r r' Hrun loc.
  destruct (fill_effect self target text clear r) as (o & w & cs & Ho & Hw & Hcs & E).
  rewrite Hrun in Ho, Hw, Hcs. cbn [fst snd] in Ho, Hw, Hcs. subst o w. fold loc in E.
  rewrite Hcs. destruct clear.
  - destruct (loc_fill loc EmptyString (page r)) as [e|w1]; [discriminate|].
    destruct (loc_fill loc text w1) as [e|w2] eqn:E2; [discriminate|].
    injection E as -> ->. split; [exact (Hlaw _ _ _ _ E2) | reflexivity].
  - destruct (loc_fill loc text (page r)) as [e|w1] eqn:E1; [discriminate|].
    injection E as -> ->. split; [exact (Hlaw _ _ _ _ E1) | reflexivity].
Qed.

End BasePageFacts.

(** Writing a password into the login form without clearing it first. *)
Lemma fill_leaves_text_witness :
  Playwright.loc_input_value (Playwright.Css "#password")
    (Playwright.page
       (snd (BasePage.fill LoginPage.self (BasePage.TSel "#password") "secret" false
               (Playwright.mkRun (SauceDemo.mkLoginForm "u" "old" []) []))))
  = Some "secret".
Proof.
  exact (proj1 (fill_leaves_text form_fill_sets_value LoginPage.self
                  (BasePage.TSel "#password") "secret" false
                  (Playwright.mkRun (SauceDemo.mkLoginForm "u" "old" []) [])
                  _ (surjective_pairing _))).
Defined.

(** ** More on the inventory page *)

Section InventoryFacts.
Import Playwright BasePage InventoryPage Journal Shop.
Context {W : Type} `{Browser W}.

Lemma add_first_item_to_cart_run (r : Run W) :
  let j := journal r ++ Log "InventoryPage" INFO "Adding first item to cart"
                        :: click_entries in
  add_first_item_to_cart r =
  match loc_click (First ADD) false (page r) with
  | inr w' => (Return tt, mkRun w' j)
  | inl e => (Raise e, mkRun (page r) j)
  end.
Proof.
  intros j. unfold add_first_item_to_cart, add_buttons.
  erewrite bind_returns by apply log_run.
  erewrite bind_returns by apply locator_run.
  rewrite click_run. cbn [target_locator page journal].
  fold ADD. unfold j, click_entries, click_entries_of. cbn [target_entries app].
  destruct (loc_click (First ADD) false (page r)); rewrite <- !app_assoc; reflexivity.
Qed.

Lemma clicks_add j k (w : W) :
  clicks (j + k) w =
  match clicks j w with
  | inl e => inl e
  | inr w' => clicks k w'
  end.
Proof.
  revert w. induction j as [|j IH]; intros w; [reflexivity|].
  cbn [Nat.add clicks]. destruct (loc_click (First ADD) false w); [reflexivity | apply IH].
Qed.

(** When each click removes one button, [add_items_to_cart] ends on the
    page that as many clicks lead to. *)
Lemma add_items_to_cart_clicks :
  click_removes_one ->
  forall number (r : Run W),
    let k := Z.to_nat (Z.min number (Z.of_nat (loc_count ADD (page r)))) in
    exists w' d,
      add_items_to_cart number r = (Return (Z.of_nat k), mkRun w' (journal r ++ d))
      /\ clicks k (page r) = inr w'
      /\ loc_count ADD w' = (loc_count ADD (page r) - k)%nat.
Proof.
  intros Hlaw number r k.
  destruct (clicks_available Hlaw k (page r)) as (w' & Hk & Hleft); [unfold k; lia|].
  rewrite add_items_to_cart_run. fold k.
  match goal with
  | |- context [for_loop k 0 _ 0 ?r1] =>
      destruct (for_loop_clicks k 0 0 r1 w' Hk) as (d & -> & _)
  end.
  cbn [page journal]. eexists w', _. rewrite <- !app_assoc.
  split; [reflexivity|]. split; assumption.
Qed.

Lemma add_all_items_to_cart_clicks :
  click_removes_one ->
  forall fuel (r : Run W),
    (loc_count ADD (page r) < fuel)%nat ->
    exists w' d,
      add_all_items_to_cart fuel r
      = (Return (Z.of_nat (loc_count ADD (page r))), mkRun w' (journal r ++ d))
      /\ clicks (loc_count ADD (page r)) (page r) = inr w'
      /\ loc_count ADD w' = O.
Proof.
  intros Hlaw fuel r Hfuel. rewrite add_all_items_to_cart_run.
  destruct (while_loop_clicks Hlaw (loc_count ADD (page r)) fuel 0 r eq_refl Hfuel)
    as (w' & d & -> & Hk & Hz).
  cbn [page journal]. eexists w', _. rewrite <- !app_assoc.
  split; [reflexivity|]. split; assumption.
Qed.

Lemma for_loop_once i acc (r : Run W) :
  for_loop 1 i (fun _ => add_one) acc r =
  match loc_click (First ADD) false (page r) with
  | inr w' => (Return (acc + 1), mkRun w' (journal r ++ click_entries))
  | inl e => (Raise e, mkRun (page r) (journal r ++ click_entries))
  end.
Proof.
  cbn [for_loop]. unfold bind. rewrite add_one_run.
  destruct (loc_click (First ADD) false (page r)); reflexivity.
Qed.

(** X9.  [add_first_item_to_cart] and [add_items_to_cart 1] do the same
    to the page while an add button is there: both make the one click and
    end as it ends.  With no add button left they differ: the former
    still clicks, the latter makes no click and returns 0. *)
Theorem add_one_item_two_ways :
  forall r : Run W,
    ((0 < loc_count ADD (page r))%nat ->
     match loc_click (First ADD) false (page r) with
     | inr w' =>
         add_first_item_to_cart r = (Return tt, snd (add_first_item_to_cart r))
         /\ fst (add_items_to_cart 1 r) = Return 1
         /\ page (snd (add_first_item_to_cart r)) = w'
         /\ page (snd (add_items_to_cart 1 r)) = w'
     | inl e =>
         fst (add_first_item_to_cart r) = Raise e
         /\ fst (add_items_to_cart 1 r) = Raise e
         /\ page (snd (add_first_item_to_cart r)) = page r
         /\ page (snd (add_items_to_cart 1 r)) = page r
     end)
    /\ (loc_count ADD (page r) = O ->
        fst (add_items_to_cart 1 r) = Return 0
        /\ page (snd (add_items_to_cart 1 r)) = page r
        /\ calls (journal (snd (add_items_to_cart 1 r)))
           = calls (journal r) ++ [CCount ADD]
        /\ calls (journal (snd (add_first_item_to_cart r)))
           = calls (journal r) ++ [CClick (First ADD) false]).
Proof.
  intros r. split.
  - intros Ha. rewrite add_first_item_to_cart_run, add_items_to_cart_run.
    replace (Z.to_nat (Z.min 1 (Z.of_nat (loc_count ADD (page r))))) with 1%nat by lia.
    rewrite for_loop_once. cbn [page journal].
    destruct (loc_click (First ADD) false (page r)) as [e|w']; cbn [fst snd page];
      repeat split.
  - intros Hz. rewrite add_first_item_to_cart_run, add_items_to_cart_run, Hz.
    change (Z.to_nat (Z.min 1 (Z.of_nat 0))) with O.
    cbn [for_loop]. unfold ret.
    cbn [fst snd page journal]. split; [reflexivity|]. split; [reflexivity|].
    split.
    + rewrite !calls_app. cbn [calls omap app]. rewrite app_nil_r. reflexivity.
    + destruct (loc_click (First ADD) false (page r)); cbn [snd journal];
        rewrite calls_app; reflexivity.
Qed.

(** X10.  Two calls in a row add up: when each click removes one button,
    [add_items_to_cart m] followed by [add_items_to_cart n] (neither
    negative) adds min(m + n, a) items in all and ends on the page that
    [add_items_to_cart (m + n)] ends on. *)
Theorem add_items_to_cart_twice :
  click_removes_one ->
  forall m n (r : Run W),
    0 <= m -> 0 <= n ->
    exists k1 r1 k2 r2 r12,
      add_items_to_cart m r = (Return k1, r1)
      /\ add_items_to_cart n r1 = (Return k2, r2)
      /\ add_items_to_cart (m + n) r = (Return (k1 + k2), r12)
      /\ k1 + k2 = Z.min (m + n) (Z.of_nat (loc_count ADD (page r)))
      /\ page r2 = page r12.
Proof.
  intros Hlaw m n r Hm Hn.
  destruct (add_items_to_cart_clicks Hlaw m r) as (w1 & d1 & E1 & Hk1 & Hc1).
  destruct (add_items_to_cart_clicks Hlaw n (mkRun w1 (journal r ++ d1)))
    as (w2 & d2 & E2 & Hk2 & Hc2).
  destruct (add_items_to_cart_clicks Hlaw (m + n) r) as (w12 & d12 & E12 & Hk12 & _).
  cbn [page] in *.
  set (a := loc_count ADD (page r)) in *.
  set (k1 := Z.to_nat (Z.min m (Z.of_nat a))) in *.
  set (k2 := Z.to_nat (Z.min n (Z.of_nat (loc_count ADD w1)))) in *.
  assert (Hsum : Z.to_nat (Z.min (m + n) (Z.of_nat a)) = (k1 + k2)%nat)
    by (unfold k1, k2; rewrite Hc1; fold k1; unfold k1; lia).
  rewrite Hsum in E12, Hk12. rewrite clicks_add, Hk1, Hk2 in Hk12.
  injection Hk12 as <-.
  eexists _, _, _, _, _. split; [exact E1|]. split; [exact E2|].
  split; [rewrite E12; f_equal; f_equal; lia|]. split; [lia | reflexivity].
Qed.

(** X11.  [add_all_items_to_cart] is idempotent in any browser: once a
    call has returned, a further call finds no add button, makes no
    click, returns 0 and leaves the page as it is. *)
Theorem add_all_items_to_cart_again :
  forall fuel fuel' (r r1 : Run W) added,
    add_all_items_to_cart fuel r = (Return added, r1) ->
    exists d,
      add_all_items_to_cart (S fuel') r1 = (Return 0, mkRun (page r1) (journal r1 ++ d))
      /\ calls d = [CCount ADD].
Proof.
  intros fuel fuel' r r1 added. rewrite add_all_items_to_cart_run.
  destruct (while_loop fuel any_left add_one 0 r) as [[v| |] r2] eqn:E; [|discriminate..].
  intros [= <- <-].
  destruct (while_loop_returns fuel 0 r v r2 E) as (_ & _ & _ & Hz & _).
  rewrite add_all_items_to_cart_run. cbn [while_loop].
  unfold bind at 1. rewrite any_left_run. cbn [page journal]. rewrite Hz.
  change (0 <? Z.of_nat 0) with false. cbv iota. unfold ret.
  cbn [page journal]. eexists. rewrite <- !app_assoc.
  split; [reflexivity|]. reflexivity.
Qed.

(** X12.  Adding some items and then all the rest empties the shelf just
    as adding all at once does: the two results add up to the number of
    add buttons there were, and the page is the same. *)
Theorem add_some_then_all :
  click_removes_one ->
  forall number fuel (r : Run W),
    (loc_count ADD (page r) < fuel)%nat ->
    exists k r1 rest r2 rall,
      add_items_to_cart number r = (Return k, r1)
      /\ add_all_items_to_cart fuel r1 = (Return rest, r2)
      /\ add_all_items_to_cart fuel r = (Return (k + rest), rall)
      /\ k + rest = Z.of_nat (loc_count ADD (page r))
      /\ page r2 = page rall
      /\ loc_count ADD (page r2) = O.
Proof.
  intros Hlaw number fuel r Hfuel.
  destruct (add_items_to_cart_clicks Hlaw number r) as (w1 & d1 & E1 & Hk1 & Hc1).
  destruct (add_all_items_to_cart_clicks Hlaw fuel (mkRun w1 (journal r ++ d1)))
    as (w2 & d2 & E2 & Hk2 & Hz); [cbn [page]; lia|].
  destruct (add_all_items_to_cart_clicks Hlaw fuel r Hfuel) as (wall & dall & Eall & Hkall & _).
  cbn [page] in *.
  set (a := loc_count ADD (page r)) in *.
  set (k1 := Z.to_nat (Z.min number (Z.of_nat a))) in *.
  assert (Hsum : a = (k1 + loc_count ADD w1)%nat) by (unfold k1 in *; lia).
  rewrite Hsum, clicks_add, Hk1, Hk2 in Hkall. injection Hkall as <-.
  eexists _, _, _, _, _. split; [exact E1|]. split; [exact E2|].
  split; [rewrite Eall; f_equal; f_equal; lia|].
  split; [lia|]. split; [reflexivity | exact Hz].
Qed.

End InventoryFacts.

(** ** More on the cart badge *)

Section BadgeFacts.
Import Playwright BasePage InventoryPage Journal Shop.
Context {W : Type} `{Browser W}.

Lemma strip_no_space s : Environment.no_space s = true -> PyStr.strip s = s.
Proof.
  intros Hs. unfold PyStr.strip.
  assert (Hl : PyStr.lstrip s = s).
  { destruct s as [|c r]; [reflexivity|]. cbn [Environment.no_space] in Hs.
    apply andb_true_iff in Hs as [Hc _]. cbn [PyStr.lstrip].
    destruct (PyStr.is_space c); [discriminate | reflexivity]. }
  rewrite Hl. clear Hl. induction s as [|c r IH]; [reflexivity|].
  cbn [Environment.no_space] in Hs. apply andb_true_iff in Hs as [Hc Hr].
  cbn [PyStr.rstrip]. rewrite (IH Hr).
  destruct (PyStr.is_space c); [discriminate | reflexivity].
Qed.

Lemma pretty_N_go_no_space x : forall s,
  Environment.no_space s = true -> Environment.no_space (pretty_N_go x s) = true.
Proof.
  induction (N.lt_wf_0 x) as [x _ IH]; intros s Hs.
  assert (x = 0 \/ 0 < x)%N as [-> | Hx] by lia.
  - rewrite pretty_N_go_0. exact Hs.
  - rewrite pretty_N_go_step by exact Hx. apply IH.
    + apply N.div_lt; [exact Hx | reflexivity].
    + cbn [Environment.no_space]. rewrite Hs, andb_true_r.
      unfold pretty_N_char. repeat case_match; reflexivity.
Qed.

Lemma of_int_no_space n : Environment.no_space (PyStr.of_int n) = true.
Proof.
  assert (HN : forall x : N, Environment.no_space (pretty x) = true).
  { intros x. unfold pretty, pretty_N. case_decide; [reflexivity|].
    apply pretty_N_go_no_space. reflexivity. }
  unfold PyStr.of_int, pretty, pretty_Z. destruct n as [|p|p].
  - reflexivity.
  - exact (HN (N.pos p)).
  - change (Environment.no_space (String "-"%char (pretty (N.pos p))) = true).
    cbn [Environment.no_space]. rewrite (HN (N.pos p)). reflexivity.
Qed.

(** The text of a badge that shows a number is that number's decimal
    form, as [get_text] returns it. *)
Lemma badge_text_of_int n :
  PyStr.strip (PyStr.or_default (Some (PyStr.of_int n)) EmptyString) = PyStr.of_int n.
Proof.
  assert (Hd : PyStr.or_default (Some (PyStr.of_int n)) EmptyString = PyStr.of_int n).
  { unfold PyStr.or_default. destruct (PyStr.of_int n); reflexivity. }
  rewrite Hd. apply strip_no_space, of_int_no_space.
Qed.

(** X13.  After [add_items_to_cart] the badge agrees with the result:
    in a browser that behaves like the shop, with c items in the cart
    before the call and k the number returned, [assert_cart_count (c + k)]
    passes on the page the call leaves, as soon as c + k is not zero. *)
Theorem badge_after_adding :
  click_removes_one -> click_converts -> badge_shows_cart ->
  forall number (r : Run W),
    let c := Z.of_nat (loc_count REMOVE (page r)) in
    exists k r1,
      add_items_to_cart number r = (Return k, r1)
      /\ 0 <= k
      /\ (0 < c + k ->
          forall j, fst (assert_cart_count (c + k) (mkRun (page r1) j)) = Return tt).
Proof.
  intros Hone Hconv Hbadge number r c.
  destruct (add_items_to_cart_clicks Hone number r) as (w1 & d & E & Hk & _).
  set (k := Z.to_nat (Z.min number (Z.of_nat (loc_count ADD (page r))))) in *.
  destruct (clicks_convert Hconv k (page r) w1 Hk) as [Hrem _].
  eexists _, _. split; [exact E|]. split; [lia|].
  cbn [page]. intros Hpos j.
  destruct (Hbadge w1) as [Hvis Htext]; [lia|].
  replace (Z.of_nat (loc_count REMOVE w1)) with (c + Z.of_nat k) in Htext by lia.
  destruct (assert_cart_count_compares (c + Z.of_nat k) (mkRun w1 j) w1 _
              ltac:(lia) (Hvis 10000) Htext) as (d' & -> & _).
  cbn [fst]. rewrite badge_text_of_int, String.eqb_refl. reflexivity.
Qed.

Lemma assert_cart_count_text_fails expected (r : Run W) w1 e :
  expected <> 0 ->
  expect_to_be_visible BADGE 10000 (page r) = inr w1 ->
  loc_text_content BADGE w1 = inl e ->
  fst (assert_cart_count expected r) = Raise e.
Proof.
  intros Hne He Ht. unfold assert_cart_count.
  rewrite (proj2 (Z.eqb_neq expected 0) Hne).
  erewrite bind_returns by apply cart_badge_run.
  erewrite bind_returns.
  2:{ rewrite expect_visible_run. cbn [target_locator page journal].
      rewrite He. reflexivity. }
  erewrite bind_returns by apply cart_badge_run.
  rewrite bind_run, get_text_run. cbn [target_locator page journal].
  rewrite Ht. reflexivity.
Qed.

Lemma assert_cart_count_passes expected (r : Run W) :
  expected <> 0 ->
  fst (assert_cart_count expected r) = Return tt ->
  exists w1 content,
    expect_to_be_visible BADGE 10000 (page r) = inr w1
    /\ loc_text_content BADGE w1 = inr content
    /\ PyStr.strip (PyStr.or_default content EmptyString) = PyStr.of_int expected.
Proof.
  intros Hne Hpass.
  destruct (expect_to_be_visible BADGE 10000 (page r)) as [e|w1] eqn:He.
  { destruct (assert_cart_count_wait_fails expected r e Hne He) as (d & E & _).
    rewrite E in Hpass. discriminate. }
  destruct (loc_text_content BADGE w1) as [e|content] eqn:Ht.
  { rewrite (assert_cart_count_text_fails expected r w1 e Hne He Ht) in Hpass.
    discriminate. }
  destruct (assert_cart_count_compares expected r w1 content Hne He Ht) as (d & E & _).
  rewrite E in Hpass. cbn [fst] in Hpass.
  exists w1, content. split; [reflexivity|]. split; [exact Ht|].
  destruct (String.eqb_spec (PyStr.strip (PyStr.or_default content EmptyString))
              (PyStr.of_int expected)) as [Heq|]; [exact Heq | discriminate].
Qed.

(** X14.  Checking for an empty cart never waits and never changes the
    page: it asks whether the badge is visible and, if so, reads it.  A
    visible badge is compared as a number: any text that [int] reads as 0
    passes, another number fails naming it, and a text that is no number
    ends in a ValueError instead of an assertion failure. *)
Theorem assert_empty_cart_reads_number :
  forall r : Run W,
    let result := assert_cart_count 0 r in
    page (snd result) = page r
    /\ (exists cs,
          calls (journal (snd result)) = calls (journal r) ++ cs
          /\ (cs = [CIsVisible BADGE] \/ cs = [CIsVisible BADGE; CTextContent BADGE]))
    /\ (loc_is_visible BADGE (page r) = inr true ->
        forall content,
          loc_text_content BADGE (page r) = inr content ->
          let t := PyStr.strip (PyStr.or_default content EmptyString) in
          (forall n, PyStr.to_int t = Some n ->
             (n = 0 -> fst result = Return tt)
             /\ (n <> 0 ->
                 fst result
                 = Raise (AssertionError
                            ("Expected empty cart (0) but badge showed "
                             +:+ PyStr.of_int n))))
          /\ (PyStr.to_int t = None -> exists msg, fst result = Raise (ValueError msg))).
Proof.
  intros r result. subst result. unfold assert_cart_count. cbn [Z.eqb].
  rewrite bind_run, is_visible_run. cbn [target_locator]. fold BADGE.
  destruct (loc_is_visible BADGE (page r)) as [e|[|]].
  - cbn [fst snd page journal]. split; [reflexivity|]. split.
    + exists [CIsVisible BADGE]. rewrite !calls_app, <- ?app_assoc. split; [reflexivity | left; reflexivity].
    + discriminate.
  - cbn [negb]. rewrite bind_run. rewrite bind_run. rewrite cart_badge_run.
    rewrite bind_run, get_text_run. cbn [target_locator page journal].
    destruct (loc_text_content BADGE (page r)) as [e|content].
    + cbn [fst snd page journal]. split; [reflexivity|]. split.
      * exists [CIsVisible BADGE; CTextContent BADGE].
        rewrite !calls_app, <- ?app_assoc. split; [reflexivity | right; reflexivity].
      * intros _ content [=].
    + destruct (PyStr.to_int (PyStr.strip (PyStr.or_default content EmptyString)))
        as [n|] eqn:En.
      * unfold mret, M_ret, ret. rewrite bind_run, assert_run.
        destruct (Z.eqb_spec n 0) as [Hn|Hn];
          unfold mbind, M_bind, bind, log, note; cbn [fst snd page journal];
          (split; [reflexivity|]); (split;
            [exists [CIsVisible BADGE; CTextContent BADGE];
             rewrite !calls_app, <- ?app_assoc; split; [reflexivity | right; reflexivity]|]);
          intros _ content' [= <-]; cbn zeta; rewrite En;
          (split; [intros n' [= <-] | discriminate]).
        -- split; [intros _; reflexivity | congruence].
        -- split; [congruence | intros _; reflexivity].
      * unfold raise. cbn [fst snd page journal]. split; [reflexivity|]. split.
        -- exists [CIsVisible BADGE; CTextContent BADGE].
           rewrite !calls_app, <- ?app_assoc. split; [reflexivity | right; reflexivity].
        -- intros _ content' [= <-]. cbn zeta. rewrite En.
           split; [discriminate | intros _; eexists; reflexivity].
  - cbn [negb]. erewrite bind_returns by reflexivity.
    erewrite bind_returns by reflexivity.
    rewrite log_run. cbn [fst snd page journal].
    split; [reflexivity|]. split.
    + exists [CIsVisible BADGE]. rewrite !calls_app, <- ?app_assoc.
      split; [reflexivity | left; reflexivity].
    + discriminate.
Qed.

(** X15.  The badge check for a non-empty cart is unambiguous: on one
    and the same run state it cannot pass for two different expected
    counts. *)
Theorem assert_cart_count_unambiguous :
  forall m n (r : Run W),
    m <> 0 -> n <> 0 ->
    fst (assert_cart_count m r) = Return tt ->
    fst (assert_cart_count n r) = Return tt ->
    m = n.
Proof.
  intros m n r Hm Hn Pm Pn.
  destruct (assert_cart_count_passes m r Hm Pm) as (w1 & c1 & E1 & T1 & S1).
  destruct (assert_cart_count_passes n r Hn Pn) as (w2 & c2 & E2 & T2 & S2).
  rewrite E1 in E2. injection E2 as <-. rewrite T1 in T2. injection T2 as <-.
  rewrite S1 in S2. unfold PyStr.of_int in S2. exact (pretty_Z_inj _ _ S2).
Qed.

End BadgeFacts.

(** Two of the six products are bought: the badge reads 2. *)
Lemma badge_after_adding_witness :
  exists r1,
    InventoryPage.add_items_to_cart 2 (Playwright.mkRun SauceDemo.six_products [])
    = (Playwright.Return 2, r1)
    /\ fst (InventoryPage.assert_cart_count 2
              (Playwright.mkRun (Playwright.page r1) []))
       = Playwright.Return tt.
Proof.
  destruct (badge_after_adding inventory_click_removes_one inventory_click_converts
              inventory_badge_shows_cart 2
              (Playwright.mkRun SauceDemo.six_products []))
    as (k & r1 & E & _ & Hpass).
  assert (Hk : k = 2).
  { pose proof (f_equal fst E) as E1. vm_compute in E1. congruence. }
  subst k. exists r1. split; [exact E|].
  exact (Hpass eq_refl []).
Defined.

(** Two, then nine more, of six products: six in all. *)
Lemma add_items_to_cart_twice_witness :
  exists k1 r1 k2 r2 r12,
    InventoryPage.add_items_to_cart 2 (Playwright.mkRun SauceDemo.six_products [])
    = (Playwright.Return k1, r1)
    /\ InventoryPage.add_items_to_cart 9 r1 = (Playwright.Return k2, r2)
    /\ InventoryPage.add_items_to_cart (2 + 9)
         (Playwright.mkRun SauceDemo.six_products [])
       = (Playwright.Return (k1 + k2), r12)
    /\ k1 + k2 = 6
    /\ Playwright.page r2 = Playwright.page r12.
Proof.
  exact (add_items_to_cart_twice inventory_click_removes_one 2 9
           (Playwright.mkRun SauceDemo.six_products [])
           ltac:(discriminate) ltac:(discriminate)).
Defined.

(** Emptying the six-product shelf, then trying again. *)
Lemma add_all_items_to_cart_again_witness :
  exists d,
    InventoryPage.add_all_items_to_cart 1
      (snd (InventoryPage.add_all_items_to_cart 7
              (Playwright.mkRun SauceDemo.six_products [])))
    = (Playwright.Return 0,
       Playwright.mkRun
         (Playwright.page
            (snd (InventoryPage.add_all_items_to_cart 7
                    (Playwright.mkRun SauceDemo.six_products []))))
         (Playwright.journal
            (snd (InventoryPage.add_all_items_to_cart 7
                    (Playwright.mkRun SauceDemo.six_products []))) ++ d))
    /\ Playwright.calls d = [Playwright.CCount Shop.ADD].
Proof.
  exact (add_all_items_to_cart_again 7 0
           (Playwright.mkRun SauceDemo.six_products []) _ 6 (surjective_pairing _)).
Defined.

(** Two of six first, the other four by [add_all_items_to_cart]. *)
Lemma add_some_then_all_witness :
  exists k r1 rest r2 rall,
    InventoryPage.add_items_to_cart 2 (Playwright.mkRun SauceDemo.six_products [])
    = (Playwright.Return k, r1)
    /\ InventoryPage.add_all_items_to_cart 7 r1 = (Playwright.Return rest, r2)
    /\ InventoryPage.add_all_items_to_cart 7
         (Playwright.mkRun SauceDemo.six_products [])
       = (Playwright.Return (k + rest), rall)
    /\ k + rest = 6
    /\ Playwright.page r2 = Playwright.page rall
    /\ Playwright.loc_count Shop.ADD (Playwright.page r2) = O.
Proof.
  exact (add_some_then_all inventory_click_removes_one 2 7
           (Playwright.mkRun SauceDemo.six_products []) ltac:(vm_compute; lia)).
Defined.

(** With two items in the cart the check passes for 2. *)
Lemma assert_cart_count_unambiguous_witness :
  fst (InventoryPage.assert_cart_count 2
         (Playwright.mkRun (SauceDemo.mkInventory [true; true; false] false) []))
  = Playwright.Return tt
  /\ 2 = 2.
Proof.
  split; [reflexivity|].
  exact (assert_cart_count_unambiguous 2 2
           (Playwright.mkRun (SauceDemo.mkInventory [true; true; false] false) [])
           ltac:(discriminate) ltac:(discriminate) eq_refl eq_refl).
Defined.

(** ** More on the logger provider *)

Section LoggerMore.
Import Logger LoggerState.

(** A call for a name that is not cached, with an unknown level: the
    logger is looked up and registered, and nothing else. *)
Lemma setup_logger_bad_level cfg amb name p :
  _loggers p !! name = None ->
  valid_level (LOG_LEVEL cfg) = false ->
  setup_logger cfg amb name p
  = (inl (ValueError ("Unknown level: '" +:+ LOG_LEVEL cfg +:+ "'")),
     set_logger (logger_key name) (the_logger p (logger_key name)) p).
Proof.
  intros Hmiss Hbad. unfold setup_logger. rewrite Hmiss, Hbad. reflexivity.
Qed.

(** A call for a name that is not cached, with a known level. *)
Lemma setup_logger_miss cfg amb name p :
  _loggers p !! name = None ->
  valid_level (LOG_LEVEL cfg) = true ->
  let key := logger_key name in
  let o := the_logger p key in
  let done_with hs :=
    (@inr PyError string key,
     {| manager := <[key := {| level := LOG_LEVEL cfg; handlers := hs;
                               propagate := false |}]> (manager p);
        _loggers := <[name := key]> (_loggers p) |}) in
  setup_logger cfg amb name p =
  match handlers o with
  | [] =>
      if file_opens amb
      then done_with [console_handler cfg; file_handler cfg (session_ts amb)]
      else (inl (OSError "cannot open log file"),
            {| manager := <[key := {| level := LOG_LEVEL cfg;
                                      handlers := [console_handler cfg];
                                      propagate := propagate o |}]> (manager p);
               _loggers := _loggers p |})
  | h :: hs => done_with (h :: hs)
  end.
Proof.
  intros Hmiss Hok key o done_with. unfold setup_logger.
  rewrite Hmiss, Hok. cbn [negb]. fold key.
  unfold add_handler. rewrite !the_logger_set_same. cbn [handlers level propagate].
  fold o. unfold done_with, set_logger. cbn [manager _loggers].
  destruct (handlers o) as [|h hs]; [destruct (file_opens amb)|];
    cbn [app]; rewrite ?insert_insert_eq; reflexivity.
Qed.

Lemma handlers_of_insert p key key' o cache :
  handlers_of {| manager := <[key := o]> (manager p); _loggers := cache |} key'
  = if decide (key = key') then handlers o else handlers_of p key'.
Proof.
  change (handlers_of {| manager := <[key := o]> (manager p); _loggers := cache |} key')
    with (handlers_of (set_logger key o p) key').
  apply handlers_of_set_logger.
Qed.

(** X16.  With a LOG_LEVEL that [setLevel] does not know, no logger is
    ever configured: every call for an uncached name raises ValueError,
    and over any sequence of calls the cache and every logger's handlers
    stay as they were. *)
Theorem unknown_level_configures_nothing :
  forall cfg,
    valid_level (LOG_LEVEL cfg) = false ->
    (forall amb name p,
       _loggers p !! name = None ->
       exists msg, fst (setup_logger cfg amb name p) = inl (ValueError msg))
    /\ (forall cs p,
          _loggers (run_calls cfg cs p) = _loggers p
          /\ forall key, handlers_of (run_calls cfg cs p) key = handlers_of p key).
Proof.
  intros cfg Hbad. split.
  - intros amb name p Hmiss. rewrite (setup_logger_bad_level _ _ _ _ Hmiss Hbad).
    eexists. reflexivity.
  - induction cs as [|[amb name] rest IH]; intros p; cbn [run_calls].
    + split; reflexivity.
    + destruct (IH (snd (setup_logger cfg amb name p))) as [Hc Hh].
      assert (Hstep : _loggers (snd (setup_logger cfg amb name p)) = _loggers p
                      /\ forall key,
                           handlers_of (snd (setup_logger cfg amb name p)) key
                           = handlers_of p key).
      { destruct (_loggers p !! name) as [l|] eqn:E.
        - unfold setup_logger. rewrite E. split; reflexivity.
        - rewrite (setup_logger_bad_level _ _ _ _ E Hbad). cbn [snd].
          split; [reflexivity|]. intros key. rewrite handlers_of_set_logger.
          destruct (decide (logger_key name = key)) as [<-|]; reflexivity. }
      destruct Hstep as [Hc' Hh']. split; [congruence|].
      intros key. rewrite Hh. apply Hh'.
Qed.

Lemma unknown_level_configures_nothing_witness :
  (exists msg,
     fst (setup_logger (mkConfig "VERBOSE" "logs") (mkAmbient "20240101_120000" true)
            "UI_Tests" (mkProcess ∅ ∅))
     = inl (ValueError msg))
  /\ handlers_of
       (run_calls (mkConfig "VERBOSE" "logs")
          [(mkAmbient "20240101_120000" true, "UI_Tests");
           (mkAmbient "20240101_120001" true, "UI_Tests")]
          (mkProcess ∅ ∅)) "UI_Tests"
     = [].
Proof.
  destruct (unknown_level_configures_nothing (mkConfig "VERBOSE" "logs") eq_refl)
    as [Hraise Hsame].
  split.
  - apply Hraise. reflexivity.
  - rewrite (proj2 (Hsame _ _)). reflexivity.
Defined.

(** X17.  A log file that cannot be opened costs the logger its file
    handler for good: the first call raises OSError after the console
    handler is attached; the next call for the name succeeds, whatever
    the file system says by then, and the logger keeps the console
    handler alone through all later calls. *)
Theorem file_handler_lost_after_failure :
  forall cfg amb1 name p,
    valid_level (LOG_LEVEL cfg) = true ->
    _loggers p !! name = None ->
    handlers_of p (logger_key name) = [] ->
    file_opens amb1 = false ->
    exists msg p1,
      setup_logger cfg amb1 name p = (inl (OSError msg), p1)
      /\ handlers_of p1 (logger_key name) = [console_handler cfg]
      /\ forall amb2,
           exists p2,
             setup_logger cfg amb2 name p1 = (inr (logger_key name), p2)
             /\ forall cs,
                  handlers_of (run_calls cfg cs p2) (logger_key name)
                  = [console_handler cfg].
Proof.
  intros cfg amb1 name p Hok Hmiss Hfresh Hfail.
  rewrite (setup_logger_miss cfg amb1 name p Hmiss Hok).
  unfold handlers_of in Hfresh. rewrite Hfresh, Hfail.
  eexists _, _. split; [reflexivity|].
  split; [rewrite handlers_of_insert, decide_True by reflexivity; reflexivity|].
  intros amb2.
  match goal with
  | |- context [setup_logger cfg amb2 name ?q] => set (p1 := q)
  end.
  assert (Hh1 : handlers (the_logger p1 (logger_key name)) = [console_handler cfg]).
  { unfold p1, the_logger. cbn [manager]. rewrite lookup_insert_eq. reflexivity. }
  rewrite (setup_logger_miss cfg amb2 name p1 Hmiss Hok). rewrite Hh1.
  eexists. split; [reflexivity|]. intros cs.
  match goal with
  | |- handlers_of (run_calls cfg cs ?q) _ = _ => set (p2 := q)
  end.
  assert (Hh2 : handlers_of p2 (logger_key name) = [console_handler cfg]).
  { unfold p2. rewrite handlers_of_insert, decide_True by reflexivity. reflexivity. }
  destruct (run_calls_attached cfg cs p2 (logger_key name)) as [-> | (Hnil & _)].
  - exact Hh2.
  - rewrite Hh2 in Hnil. discriminate.
Qed.

Lemma file_handler_lost_after_failure_witness :
  exists msg p1,
    setup_logger (mkConfig "INFO" "logs") (mkAmbient "20240101_120000" false)
      "Fixtures" (mkProcess ∅ ∅)
    = (inl (OSError msg), p1)
    /\ handlers_of p1 "Fixtures" = [console_handler (mkConfig "INFO" "logs")]
    /\ forall amb2,
         exists p2,
           setup_logger (mkConfig "INFO" "logs") amb2 "Fixtures" p1
           = (inr "Fixtures", p2)
           /\ forall cs,
                handlers_of (run_calls (mkConfig "INFO" "logs") cs p2) "Fixtures"
                = [console_handler (mkConfig "INFO" "logs")].
Proof.
  exact (file_handler_lost_after_failure (mkConfig "INFO" "logs")
           (mkAmbient "20240101_120000" false) "Fixtures" (mkProcess ∅ ∅)
           eq_refl eq_refl eq_refl eq_refl).
Defined.

Lemma configured_insert_same cfg m cache key o :
  level o = LOG_LEVEL cfg -> propagate o = false -> handlers o <> [] ->
  configured cfg {| manager := <[key := o]> m; _loggers := cache |} key.
Proof.
  intros Hl Hp Hh. exists o. cbn [manager]. rewrite lookup_insert_eq. auto.
Qed.

Lemma configured_insert_other cfg p cache key o l :
  key <> l ->
  configured cfg p l ->
  configured cfg {| manager := <[key := o]> (manager p); _loggers := cache |} l.
Proof.
  intros Hne (o' & Ho' & Hrest). exists o'. cbn [manager].
  rewrite lookup_insert_ne by exact Hne. auto.
Qed.

Lemma configured_handlers cfg p l : configured cfg p l -> handlers (the_logger p l) <> [].
Proof. intros (o & Ho & _ & _ & Hh). unfold the_logger. rewrite Ho. exact Hh. Qed.

Lemma setup_logger_keeps_cache_sound cfg amb name p :
  cache_sound cfg p -> cache_sound cfg (snd (setup_logger cfg amb name p)).
Proof.
  intros Hinv. destruct (_loggers p !! name) as [l0|] eqn:Ecache.
  { unfold setup_logger. rewrite Ecache. exact Hinv. }
  destruct (valid_level (LOG_LEVEL cfg)) eqn:Elevel.
  - rewrite (setup_logger_miss cfg amb name p Ecache Elevel).
    set (key := logger_key name).
    assert (Hdone : forall hs, hs <> [] ->
              cache_sound cfg
                {| manager := <[key := {| level := LOG_LEVEL cfg; handlers := hs;
                                          propagate := false |}]> (manager p);
                   _loggers := <[name := key]> (_loggers p) |}).
    { intros hs Hhs n l. cbn [_loggers]. rewrite lookup_insert.
      destruct (decide (name = n)) as [<-|Hn].
      - intros [= <-]. split; [reflexivity|].
        apply configured_insert_same; auto.
      - intros Hl. destruct (Hinv n l Hl) as [-> Hconf]. split; [reflexivity|].
        destruct (decide (key = logger_key n)) as [<-|Hk].
        + apply configured_insert_same; auto.
        + apply configured_insert_other; assumption. }
    destruct (handlers (the_logger p key)) as [|h hs] eqn:Eh.
    + destruct (file_opens amb); cbn [snd]; [apply Hdone; discriminate|].
      intros n l. cbn [_loggers]. intros Hl.
      destruct (Hinv n l Hl) as [-> Hconf]. split; [reflexivity|].
      destruct (decide (key = logger_key n)) as [Hk|Hk].
      * apply configured_handlers in Hconf. rewrite <- Hk, Eh in Hconf.
        contradiction.
      * apply configured_insert_other; assumption.
    + cbn [snd]. apply Hdone. discriminate.
  - rewrite (setup_logger_bad_level cfg amb name p Ecache Elevel). cbn [snd].
    intros n l. unfold set_logger. cbn [_loggers]. intros Hl.
    destruct (Hinv n l Hl) as [-> Hconf]. split; [reflexivity|].
    destruct (decide (logger_key name = logger_key n)) as [Hk|Hk].
    + destruct Hconf as (o & Ho & Hrest). exists o. cbn [manager].
      rewrite Hk, lookup_insert_eq. unfold the_logger. rewrite Ho. auto.
    + apply configured_insert_other; assumption.
Qed.

(** X18.  The cache only holds finished loggers: starting from an empty
    cache (or from any state where this already holds), after any
    sequence of calls, failed ones included, every cached name refers
    to the logger of that name, which is registered with the configured
    level, does not propagate and has at least one handler. *)
Theorem cached_loggers_are_configured :
  (forall cfg cs p, cache_sound cfg p -> cache_sound cfg (run_calls cfg cs p))
  /\ (forall cfg cs p, _loggers p = ∅ -> cache_sound cfg (run_calls cfg cs p)).
Proof.
  assert (Hkeep : forall cfg cs p,
            cache_sound cfg p -> cache_sound cfg (run_calls cfg cs p)).
  { intros cfg. induction cs as [|[amb name] rest IH]; intros p Hinv; cbn [run_calls].
    - exact Hinv.
    - apply IH, setup_logger_keeps_cache_sound, Hinv. }
  split; [exact Hkeep|].
  intros cfg cs p Hempty. apply Hkeep. intros n l. rewrite Hempty, lookup_empty.
  discriminate.
Qed.

(** A failed call, a successful one and a cache hit, from a fresh
    process. *)
Lemma cached_loggers_are_configured_witness :
  cache_sound (mkConfig "DEBUG" "logs")
    (run_calls (mkConfig "DEBUG" "logs")
       [(mkAmbient "20240101_120000" false, "API_Tests");
        (mkAmbient "20240101_120001" true, "UI_Tests");
        (mkAmbient "20240101_120002" true, "UI_Tests")]
       (mkProcess ∅ ∅)).
Proof.
  apply (proj2 cached_loggers_are_configured). reflexivity.
Defined.

Lemma string_length_app s t :
  String.length (s +:+ t) = (String.length s + String.length t)%nat.
Proof.
  induction s as [|c r IH]; [reflexivity|].
  change (String c r +:+ t) with (String c (r +:+ t)).
  cbn [String.length]. rewrite IH. reflexivity.
Qed.

Lemma string_app_inv_tail t : forall s1 s2, s1 +:+ t = s2 +:+ t -> s1 = s2.
Proof.
  induction s1 as [|c r IH]; intros [|c' r'] Heq.
  - reflexivity.
  - apply (f_equal String.length) in Heq.
    rewrite !string_length_app in Heq. cbn [String.length] in Heq. lia.
  - apply (f_equal String.length) in Heq.
    rewrite !string_length_app in Heq. cbn [String.length] in Heq. lia.
  - change (String c r +:+ t) with (String c (r +:+ t)) in Heq.
    change (String c' r' +:+ t) with (String c' (r' +:+ t)) in Heq.
    injection Heq as -> Heq. f_equal. apply IH, Heq.
Qed.

(** The log file's path determines the clock reading in its name. *)
Lemma file_handler_inj cfg ts1 ts2 :
  file_handler cfg ts1 = file_handler cfg ts2 -> ts1 = ts2.
Proof.
  unfold file_handler. intros [= Hpath]. revert Hpath. unfold path_join.
  change (String.prefix "/" ("test_run_" +:+ ts1 +:+ ".log")) with false.
  change (String.prefix "/" ("test_run_" +:+ ts2 +:+ ".log")) with false.
  cbv iota.
  destruct (negb (PyStr.truthy (LOG_DIR cfg)) || String.prefix "/" (String.rev (LOG_DIR cfg)));
    intros Hpath.
  - apply String.app_inj, String.app_inj in Hpath.
    exact (string_app_inv_tail _ _ _ Hpath).
  - apply String.app_inj, String.app_inj, String.app_inj in Hpath.
    exact (string_app_inv_tail _ _ _ Hpath).
Qed.

(** X19.  The log file is named after the moment of the call that
    attaches it, not after the run: two names set up one after the other
    each get the file handler of their own call, and these are the same
    file only if the two clock readings are the same. *)
Theorem log_file_named_per_call :
  forall cfg amb1 amb2 name1 name2 p,
    valid_level (LOG_LEVEL cfg) = true ->
    file_opens amb1 = true -> file_opens amb2 = true ->
    logger_key name1 <> logger_key name2 ->
    _loggers p !! name1 = None -> _loggers p !! name2 = None ->
    handlers_of p (logger_key name1) = [] ->
    handlers_of p (logger_key name2) = [] ->
    let p2 := snd (setup_logger cfg amb2 name2 (snd (setup_logger cfg amb1 name1 p))) in
    handlers_of p2 (logger_key name1)
    = [console_handler cfg; file_handler cfg (session_ts amb1)]
    /\ handlers_of p2 (logger_key name2)
       = [console_handler cfg; file_handler cfg (session_ts amb2)]
    /\ (file_handler cfg (session_ts amb1) = file_handler cfg (session_ts amb2)
        -> session_ts amb1 = session_ts amb2).
Proof.
  intros cfg amb1 amb2 name1 name2 p Hok Ho1 Ho2 Hkeys Hm1 Hm2 Hf1 Hf2 p2.
  assert (Hnames : name1 <> name2) by congruence.
  subst p2. rewrite (setup_logger_miss cfg amb1 name1 p Hm1 Hok).
  unfold handlers_of in Hf1. rewrite Hf1, Ho1. cbn [snd].
  match goal with
  | |- context [setup_logger cfg amb2 name2 ?q] => set (p1 := q)
  end.
  assert (Hm2' : _loggers p1 !! name2 = None).
  { unfold p1. cbn [_loggers]. rewrite lookup_insert_ne by exact Hnames. exact Hm2. }
  assert (Hf2' : handlers (the_logger p1 (logger_key name2)) = []).
  { change (handlers_of p1 (logger_key name2) = []). unfold p1.
    rewrite handlers_of_insert, decide_False by exact Hkeys. exact Hf2. }
  rewrite (setup_logger_miss cfg amb2 name2 p1 Hm2' Hok). rewrite Hf2', Ho2. cbn [snd].
  split; [|split].
  - rewrite handlers_of_insert, decide_False by congruence.
    unfold p1. rewrite handlers_of_insert, decide_True by reflexivity. reflexivity.
  - rewrite handlers_of_insert, decide_True by reflexivity. reflexivity.
  - apply file_handler_inj.
Qed.

(** Fixtures and tests set up a second apart write to two files. *)
Lemma log_file_named_per_call_witness :
  handlers_of
    (snd (setup_logger (mkConfig "INFO" "logs") (mkAmbient "20240101_120001" true)
            "UI_Tests"
            (snd (setup_logger (mkConfig "INFO" "logs")
                    (mkAmbient "20240101_120000" true) "Fixtures" (mkProcess ∅ ∅)))))
    "Fixtures"
  = [console_handler (mkConfig "INFO" "logs");
     FileHandler "logs/test_run_20240101_120000.log" "INFO" FMT DATEFMT]
  /\ handlers_of
       (snd (setup_logger (mkConfig "INFO" "logs") (mkAmbient "20240101_120001" true)
               "UI_Tests"
               (snd (setup_logger (mkConfig "INFO" "logs")
                       (mkAmbient "20240101_120000" true) "Fixtures" (mkProcess ∅ ∅)))))
       "UI_Tests"
     = [console_handler (mkConfig "INFO" "logs");
        FileHandler "logs/test_run_20240101_120001.log" "INFO" FMT DATEFMT].
Proof.
  destruct (log_file_named_per_call (mkConfig "INFO" "logs")
              (mkAmbient "20240101_120000" true) (mkAmbient "20240101_120001" true)
              "Fixtures" "UI_Tests" (mkProcess ∅ ∅)
              eq_refl eq_refl eq_refl ltac:(discriminate)
              eq_refl eq_refl eq_refl eq_refl) as (H1 & H2 & _).
  split; [exact H1 | exact H2].
Defined.

End LoggerMore.

(** ** When the browser does not cooperate *)

Section Failures.
Import Playwright BasePage InventoryPage Journal Shop Frozen.
Context {W : Type} `{Browser W}.

(** The counted loop when the click after [j] good ones fails. *)
Lemma for_loop_aborts j : forall k i acc (r : Run W) w e,
  (j < k)%nat ->
  clicks j (page r) = inr w ->
  loc_click (First ADD) false w = inl e ->
  exists d,
    for_loop k i (fun _ => add_one) acc r = (Raise e, mkRun w (journal r ++ d))
    /\ calls d = replicate (S j) (CClick (First ADD) false).
Proof.
  induction j as [|j IH]; intros k i acc r w e Hjk Hclicks Hfail;
    (destruct k as [|k]; [lia|]); cbn [clicks for_loop] in *.
  - injection Hclicks as <-. unfold bind. rewrite add_one_run, Hfail.
    exists click_entries. split; reflexivity.
  - destruct (loc_click (First ADD) false (page r)) as [e1|w1] eqn:E1; [discriminate|].
    unfold bind at 1. rewrite add_one_run, E1.
    destruct (IH k (i + 1) (acc + 1) (mkRun w1 (journal r ++ click_entries)) w e
                ltac:(lia) Hclicks Hfail) as (d & -> & Hd).
    exists (click_entries ++ d). cbn [journal]. rewrite <- app_assoc.
    split; [reflexivity|]. rewrite calls_app, Hd. reflexivity.
Qed.

(** X20.  A click that fails aborts [add_items_to_cart]: the error is
    raised as it is, no count is returned, nothing is retried or undone,
    and the page keeps the items added by the clicks before it. *)
Theorem add_items_to_cart_aborts :
  forall number (r : Run W) j w e,
    (j < Z.to_nat (Z.min number (Z.of_nat (loc_count ADD (page r)))))%nat ->
    clicks j (page r) = inr w ->
    loc_click (First ADD) false w = inl e ->
    exists d,
      add_items_to_cart number r = (Raise e, mkRun w (journal r ++ d))
      /\ calls d = CCount ADD :: replicate (S j) (CClick (First ADD) false).
Proof.
  intros number r j w e Hj Hclicks Hfail.
  rewrite add_items_to_cart_run.
  match goal with
  | |- context [for_loop ?k 0 _ 0 ?r1] =>
      destruct (for_loop_aborts j k 0 0 r1 w e Hj Hclicks Hfail) as (d & -> & Hd)
  end.
  cbn [journal]. eexists. rewrite <- !app_assoc. split; [reflexivity|].
  rewrite !calls_app, Hd. reflexivity.
Qed.

(** The open loop spins as long as clicking leaves a button. *)
Lemma while_loop_spins :
  click_keeps_buttons ->
  forall fuel acc (r : Run W),
    (0 < loc_count ADD (page r))%nat ->
    fst (while_loop fuel any_left add_one acc r) = Unfinished.
Proof.
  intros Hlaw. induction fuel as [|fuel IH]; intros acc r Hr; [reflexivity|].
  cbn [while_loop]. unfold bind at 1. rewrite any_left_run.
  replace (0 <? Z.of_nat (loc_count ADD (page r))) with true
    by (symmetry; apply Z.ltb_lt; lia).
  destruct (Hlaw (page r) Hr) as (w' & E & Hw').
  unfold bind at 1. rewrite add_one_run. cbn [page journal]. rewrite E.
  apply IH. exact Hw'.
Qed.

(** X21.  [add_all_items_to_cart] has no bound of its own: on a page
    where every click goes through but an add button always remains, it
    never returns and never raises, whatever the iteration budget. *)
Theorem add_all_items_to_cart_may_spin :
  click_keeps_buttons ->
  forall fuel (r : Run W),
    (0 < loc_count ADD (page r))%nat ->
    fst (add_all_items_to_cart fuel r) = Unfinished.
Proof.
  intros Hlaw fuel r Hr. rewrite add_all_items_to_cart_run.
  pose proof (while_loop_spins Hlaw fuel 0 r Hr) as Hspin.
  destruct (while_loop fuel any_left add_one 0 r) as [[v| |] r2];
    cbn [fst] in *; congruence.
Qed.

(** X22.  [login] stops at the first browser call that fails: its calls
    are always an initial part of clear-user, write-user, clear-password,
    write-password, click; it returns only after all five; and it ends
    by returning or raising, never otherwise. *)
Theorem login_stops_at_first_failure :
  forall credentials username password (r : Run W),
    let result := LoginPage.login credentials username password r in
    let u := PyStr.or_default username (Settings.username credentials) in
    let p := PyStr.or_default password (Settings.password credentials) in
    let full := [CFill (Css "#user-name") EmptyString; CFill (Css "#user-name") u;
                 CFill (Css "#password") EmptyString; CFill (Css "#password") p;
                 CClick (Css "#login-button") false] in
    exists k,
      (1 <= k <= 5)%nat
      /\ calls (journal (snd result)) = calls (journal r) ++ take k full
      /\ (fst result = Return tt -> k = 5%nat)
      /\ (fst result = Return tt \/ exists e, fst result = Raise e)
      /\ (forall e, loc_fill (Css "#user-name") EmptyString (page r) = inl e ->
          fst result = Raise e /\ page (snd result) = page r /\ k = 1%nat).
Proof.
  intros credentials username password r result u p full. subst result.
  unfold LoginPage.login. fold u p.
  unfold LoginPage.username_input, LoginPage.password_input, LoginPage.login_button.
  erewrite bind_returns by apply locator_run.
  rewrite bind_run, fill_run. cbn [target_locator page journal].
  destruct (loc_fill (Css "#user-name") EmptyString (page r)) as [e|w1].
  { exists 1%nat. cbn [fst snd page journal]. split; [lia|].
    rewrite !calls_app, calls_fill_log, <- ?app_assoc.
    split; [reflexivity|]. split; [discriminate|]. split; [right; eauto|].
    intros e' [= <-]. auto. }
  destruct (loc_fill (Css "#user-name") u w1) as [e|w2].
  { exists 2%nat. cbn [fst snd page journal]. split; [lia|].
    rewrite !calls_app, calls_fill_log, <- ?app_assoc.
    split; [reflexivity|]. split; [discriminate|]. split; [right; eauto|].
    discriminate. }
  erewrite bind_returns by apply locator_run.
  rewrite bind_run, fill_run. cbn [target_locator page journal].
  destruct (loc_fill (Css "#password") EmptyString w2) as [e|w3].
  { exists 3%nat. cbn [fst snd page journal]. split; [lia|].
    rewrite !calls_app, !calls_fill_log, <- ?app_assoc.
    split; [reflexivity|]. split; [discriminate|]. split; [right; eauto|].
    discriminate. }
  destruct (loc_fill (Css "#password") p w3) as [e|w4].
  { exists 4%nat. cbn [fst snd page journal]. split; [lia|].
    rewrite !calls_app, !calls_fill_log, <- ?app_assoc.
    split; [reflexivity|]. split; [discriminate|]. split; [right; eauto|].
    discriminate. }
  erewrite bind_returns by apply locator_run.
  rewrite click_run. cbn [target_locator page journal].
  exists 5%nat.
  destruct (loc_click (Css "#login-button") false w4) as [e|w5];
    cbn [fst snd page journal]; (split; [lia|]);
    rewrite !calls_app, !calls_fill_log, calls_click_entries, <- ?app_assoc;
    (split; [reflexivity|]); (split; [reflexivity|]).
  - split; [right; eauto | discriminate].
  - split; [left; reflexivity | discriminate].
Qed.

End Failures.

Lemma shelf_click_keeps_buttons : Frozen.click_keeps_buttons (W := Frozen.Shelf).
Proof.
  intros w Hw. exists w.
  change (Playwright.loc_count Shop.ADD w) with (Frozen.buttons w) in *.
  split; [|exact Hw].
  change (Playwright.loc_click (Playwright.First Shop.ADD) false w)
    with (Frozen.shelf_click (Playwright.First Shop.ADD) false w).
  unfold Frozen.shelf_click.
  change (Frozen.shelf_count (Playwright.First Shop.ADD) w)
    with (Nat.min 1 (Frozen.buttons w)).
  replace (Nat.min 1 (Frozen.buttons w)) with 1%nat by lia. reflexivity.
Qed.

(** Four of six items requested in a browser that breaks down after two
    actions: the call raises with two items in the cart. *)
Lemma add_items_to_cart_aborts_witness :
  exists d,
    InventoryPage.add_items_to_cart 4
      (Playwright.mkRun (SauceDemo.mkFlaky 2 SauceDemo.six_products) [])
    = (Playwright.Raise (TimeoutError "browser has been closed"),
       Playwright.mkRun
         (SauceDemo.mkFlaky 0
            (SauceDemo.mkInventory [true; true; false; false; false; false] false))
         ([] ++ d))
    /\ Playwright.calls d
       = Playwright.CCount Shop.ADD
         :: replicate 3 (Playwright.CClick (Playwright.First Shop.ADD) false).
Proof.
  assert (Hj : (2 < Z.to_nat
                     (Z.min 4
                        (Z.of_nat
                           (Playwright.loc_count Shop.ADD
                              (SauceDemo.mkFlaky 2 SauceDemo.six_products)))))%nat)
    by (vm_compute; lia).
  exact (add_items_to_cart_aborts 4
           (Playwright.mkRun (SauceDemo.mkFlaky 2 SauceDemo.six_products) [])
           2%nat _ _ Hj eq_refl eq_refl).
Defined.

(** Three buttons that never go away: fifty rounds are not enough. *)
Lemma add_all_items_to_cart_may_spin_witness :
  fst (InventoryPage.add_all_items_to_cart 50
         (Playwright.mkRun (Frozen.mkShelf 3) []))
  = Playwright.Unfinished.
Proof.
  assert (Hpos : (0 < Playwright.loc_count Shop.ADD (Frozen.mkShelf 3))%nat)
    by (vm_compute; lia).
  exact (add_all_items_to_cart_may_spin shelf_click_keeps_buttons 50
           (Playwright.mkRun (Frozen.mkShelf 3) []) Hpos).
Defined.
